(** * Sale-item workflow: a shallow embedding of [workflows.py]

    The workflow class [SaleItemWorkflow] is embedded as a record of its
    attributes together with one function per handler.  A handler that
    awaits (an activity, the lock, a child workflow) is cut at its await
    points: the first part runs up to the await and leaves a [suspended]
    entry among the in-flight handlers, a resume function runs the rest.
    The engine's scheduling is a list of [event]s; [step] runs one of them. *)

From stdpp Require Import base option list strings gmap.
From Stdlib Require Import ZArith Lia.

Open Scope string_scope.
Open Scope Z_scope.

(** ** Data model *)

(** Modelled from the spec: [models.SaleItem] is imported by [workflows.py]
    but its declaration is not part of the sources.  The three fields are the
    keyword arguments of the two constructor calls in [workflows.py]; the
    quantity is an [int], as are [SaleItemWorkflowInput.quantity] and
    [SaleItemSplitInput.quantity], the only values ever stored in it (so the
    test [quantity is None] of [split_sale_item] is never true). *)
Record SaleItem := mkSaleItem {
  sale_item_id : string;
  current_status : string;
  quantity : Z
}.

Record SaleItemStatusUpdateInput := mkSaleItemStatusUpdateInput {
  upd_status : string
}.

Record SaleItemSplitInput := mkSaleItemSplitInput {
  split_quantity : Z
}.

Record MarkFulfilledInput := mkMarkFulfilledInput {
  name : string
}.

Record SaleItemWorkflowInput := mkSaleItemWorkflowInput {
  in_sale_item_id : string;
  in_quantity : Z;
  in_status : option string
}.

#[global] Instance SaleItem_eq_dec : EqDecision SaleItem.
Proof. solve_decision. Defined.

#[global] Instance SaleItemWorkflowInput_eq_dec : EqDecision SaleItemWorkflowInput.
Proof. solve_decision. Defined.

(** ** The transition table and its guard *)

(** The module-level dict [transitions]. *)
Definition transitions : gmap string (list string) :=
  <[ "open" := ["ready"] ]>
  (<[ "ready" := ["open"; "billed_pending"] ]>
  (<[ "billed_pending" := ["billed_approved"] ]>
  (<[ "billed_approved" := ["billed_pending"] ]> ∅))).

(** Class [StateMachine]: the state and the table it was built with. *)
Record StateMachine := mkStateMachine {
  sm_state : string;
  sm_transitions : gmap string (list string)
}.

(** [new_state in self.transitions.get(self.state, [])] *)
Definition can_transition (self : StateMachine) (new_state : string) : bool :=
  bool_decide (new_state ∈ default [] (sm_transitions self !! sm_state self)).

(** The [ValueError] of [StateMachine.transition]; its message names both
    states. *)
Inductive ValueError := InvalidTransitionValue (from to : string).

Definition transition (self : StateMachine) (new_state : string)
  : ValueError + StateMachine :=
  if can_transition self new_state
  then inr (mkStateMachine new_state (sm_transitions self))
  else inl (InvalidTransitionValue (sm_state self) new_state).

(** ** Activities, failures and handler results *)

(** The four transition activities of [activities.py] that [update_status]
    dispatches ([post_update_activity] is only referred to in comments). *)
Inductive Activity :=
| move_from_open_to_ready
| move_from_ready_to_open
| move_from_ready_to_billed_pending
| move_from_billed_pending_to_billed_approved.

#[global] Instance Activity_eq_dec : EqDecision Activity.
Proof. solve_decision. Defined.

(** How an awaited activity fails: the [start_to_close_timeout] of ten
    seconds elapses, or the activity itself raises. *)
Inductive ActivityFailure := StartToCloseTimeout | RemoteFault.

Inductive ActivityResult :=
| ActivityCompleted
| ActivityFailed (cause : ActivityFailure).

(** What a handler can raise.  The four [ApplicationError]s of
    [workflows.py] are told apart by their message. *)
Inductive Failure :=
| NotInitialized                                  (* "Sale item not initialized" *)
| InvalidTransition (current new : string)        (* "Invalid status transition from .. to ..: .." *)
| InvalidStatus (new : string)                    (* "Invalid status: .." *)
| InsufficientQuantity                            (* "Not enough quantity to split sale item" *)
| ActivityError (a : Activity) (cause : ActivityFailure)
| ChildWorkflowError
| AttributeError.                                 (* attribute access on None *)

(** What a handler can return. *)
Inductive Value :=
| VSaleItem (item : SaleItem)
| VDict                                           (* the empty dict returned by [run] *)
| VNone.

Definition Result : Type := Failure + Value.

(** What one scheduling step lets the engine observe. *)
Inductive output :=
| Reply (r : Result)
| ExecuteActivity (a : Activity) (arg : SaleItem)
| ExecuteChildWorkflow (input : SaleItemWorkflowInput) (id task_queue : string).

(** A handler parked at an await, with the locals its remainder reads. *)
Inductive suspended :=
| AwaitingActivity (a : Activity) (new_status : string)   (* [update_status] at [execute_activity] *)
| AwaitingLock (quantity : Z)                             (* [split_sale_item] at [async with self.lock] *)
| AwaitingChild.                                          (* [split_sale_item] at [execute_child_workflow] *)

Definition is_awaiting_lock (h : suspended) : bool :=
  match h with AwaitingLock _ => true | _ => false end.

(** ** The workflow instance *)

(** The attributes of [SaleItemWorkflow], and the handlers the engine holds
    in flight for it.  [lock] is whether the [asyncio.Lock] is held; its
    waiters are the [AwaitingLock] entries of [handlers], oldest first. *)
Record SaleItemWorkflow := mkSaleItemWorkflow {
  lock : bool;
  should_update : bool;
  sale_item_fulfilled : bool;
  sale_item : option SaleItem;
  approver_name : option string;
  handlers : list suspended
}.

(** [SaleItemWorkflow.__init__] *)
Definition init : SaleItemWorkflow :=
  {| lock := false; should_update := false; sale_item_fulfilled := false;
     sale_item := None; approver_name := None; handlers := [] |}.

Definition set_lock (b : bool) (self : SaleItemWorkflow) : SaleItemWorkflow :=
  {| lock := b; should_update := should_update self;
     sale_item_fulfilled := sale_item_fulfilled self;
     sale_item := sale_item self; approver_name := approver_name self;
     handlers := handlers self |}.

Definition set_should_update (b : bool) (self : SaleItemWorkflow) : SaleItemWorkflow :=
  {| lock := lock self; should_update := b;
     sale_item_fulfilled := sale_item_fulfilled self;
     sale_item := sale_item self; approver_name := approver_name self;
     handlers := handlers self |}.

Definition set_sale_item_fulfilled (b : bool) (self : SaleItemWorkflow) : SaleItemWorkflow :=
  {| lock := lock self; should_update := should_update self;
     sale_item_fulfilled := b;
     sale_item := sale_item self; approver_name := approver_name self;
     handlers := handlers self |}.

Definition set_sale_item (it : SaleItem) (self : SaleItemWorkflow) : SaleItemWorkflow :=
  {| lock := lock self; should_update := should_update self;
     sale_item_fulfilled := sale_item_fulfilled self;
     sale_item := Some it; approver_name := approver_name self;
     handlers := handlers self |}.

Definition set_approver_name (n : string) (self : SaleItemWorkflow) : SaleItemWorkflow :=
  {| lock := lock self; should_update := should_update self;
     sale_item_fulfilled := sale_item_fulfilled self;
     sale_item := sale_item self; approver_name := Some n;
     handlers := handlers self |}.

Definition set_handlers (hs : list suspended) (self : SaleItemWorkflow) : SaleItemWorkflow :=
  {| lock := lock self; should_update := should_update self;
     sale_item_fulfilled := sale_item_fulfilled self;
     sale_item := sale_item self; approver_name := approver_name self;
     handlers := hs |}.

(** A handler parks itself / is taken off the in-flight list when it ends. *)
Definition park (h : suspended) (self : SaleItemWorkflow) : SaleItemWorkflow :=
  set_handlers (handlers self ++ [h])%list self.

Definition unpark (i : nat) (self : SaleItemWorkflow) : SaleItemWorkflow :=
  set_handlers (delete i (handlers self)) self.

(** [workflow.all_handlers_finished()] *)
Definition all_handlers_finished (self : SaleItemWorkflow) : bool :=
  bool_decide (handlers self = []).

Definition set_current_status (s : string) (it : SaleItem) : SaleItem :=
  {| sale_item_id := sale_item_id it; current_status := s; quantity := quantity it |}.

Definition set_quantity (q : Z) (it : SaleItem) : SaleItem :=
  {| sale_item_id := sale_item_id it; current_status := current_status it; quantity := q |}.

(** ** [run] *)

(** Python's [input.status or "open"]: [None] and the empty string are
    both falsy. *)
Definition status_or_open (status : option string) : string :=
  match status with
  | None => "open"
  | Some s => if decide (s = "") then "open" else s
  end.

(** [run], up to its [wait_condition]. *)
Definition run_start (self : SaleItemWorkflow) (input : SaleItemWorkflowInput)
  : SaleItemWorkflow :=
  set_should_update false
    (set_sale_item
       {| sale_item_id := in_sale_item_id input;
          current_status := status_or_open (in_status input);
          quantity := in_quantity input |} self).

(** The predicate [run] waits on. *)
Definition wait_condition (self : SaleItemWorkflow) : bool :=
  (should_update self || sale_item_fulfilled self) && all_handlers_finished self.

(** How [run] goes on from its [wait_condition]. *)
Inductive RunOutcome :=
| StillWaiting
| ContinueAsNew (input : SaleItemWorkflowInput)
| Returned (v : Value)
| RunRaised (e : Failure).

Definition run_resume (self : SaleItemWorkflow) : RunOutcome :=
  if wait_condition self then
    if should_update self then
      match sale_item self with
      | Some item =>
          ContinueAsNew
            {| in_sale_item_id := sale_item_id item;
               in_quantity := quantity item;
               in_status := Some (current_status item) |}
      | None => RunRaised AttributeError
      end
    else Returned VDict
  else StillWaiting.

(** ** Handlers *)

(** [mark_fulfilled] (signal): no reply. *)
Definition mark_fulfilled (self : SaleItemWorkflow) (input : MarkFulfilledInput)
  : SaleItemWorkflow * list output :=
  (set_approver_name (name input) (set_sale_item_fulfilled true self), []).

(** [update_workflow] (update) *)
Definition update_workflow (self : SaleItemWorkflow)
  : SaleItemWorkflow * list output :=
  (set_should_update true self, [Reply (inr VNone)]).

(** [get_sale_item] (query) *)
Definition get_sale_item (self : SaleItemWorkflow) : Result :=
  match sale_item self with
  | None => inl NotInitialized
  | Some item => inr (VSaleItem item)
  end.

(** [get_transitions] (query) *)
Definition get_transitions (self : SaleItemWorkflow) : gmap string (list string) :=
  transitions.

(** [_check_status_transition]: the [ValueError] of the state machine is
    turned into an [ApplicationError] naming both states. *)
Definition _check_status_transition (current_status new_status : string)
  : Failure + unit :=
  let state_machine := mkStateMachine current_status transitions in
  match transition state_machine new_status with
  | inr _ => inr tt
  | inl (InvalidTransitionValue _ _) =>
      inl (InvalidTransition current_status new_status)
  end.

(** [update_status], up to the [execute_activity] of the matching case. *)
Definition update_status (self : SaleItemWorkflow) (input : SaleItemStatusUpdateInput)
  : SaleItemWorkflow * list output :=
  match sale_item self with
  | None => (self, [Reply (inl NotInitialized)])
  | Some item =>
      let current_status := current_status item in
      let new_status := upd_status input in
      match _check_status_transition current_status new_status with
      | inl e => (self, [Reply (inl e)])
      | inr _ =>
          let await a :=
            (park (AwaitingActivity a new_status) self, [ExecuteActivity a item]) in
          if decide (new_status = "open") then
            await move_from_ready_to_open
          else if decide (new_status = "ready") then
            await move_from_open_to_ready
          else if decide (new_status = "billed_pending") then
            await move_from_ready_to_billed_pending
          else if decide (new_status = "billed_approved") then
            await move_from_billed_pending_to_billed_approved
          else
            (self, [Reply (inl (InvalidStatus new_status))])
      end
  end.

(** [update_status], from the return of its [execute_activity] on: a failed
    activity raises out of the handler; otherwise the [billed_approved] case
    sets the fulfilled flag, and the status is written and the item returned. *)
Definition update_status_resume (self : SaleItemWorkflow)
    (a : Activity) (new_status : string) (r : ActivityResult)
  : SaleItemWorkflow * list output :=
  match r with
  | ActivityFailed cause => (self, [Reply (inl (ActivityError a cause))])
  | ActivityCompleted =>
      let self :=
        if decide (a = move_from_billed_pending_to_billed_approved)
        then set_sale_item_fulfilled true self else self in
      match sale_item self with
      | None => (self, [Reply (inl AttributeError)])
      | Some item =>
          let item := set_current_status new_status item in
          (set_sale_item item self, [Reply (inr (VSaleItem item))])
      end
  end.

(** The body of [async with self.lock] in [split_sale_item], entered with the
    lock held: up to [execute_child_workflow], or to the raise that leaves the
    block and releases the lock.  The quantity being an [int], the disjunct
    [quantity is None] of the test is false and the test is the comparison. *)
Definition split_locked (self : SaleItemWorkflow) (quantity_ : Z)
  : SaleItemWorkflow * list output :=
  match sale_item self with
  | None => (set_lock false self, [Reply (inl AttributeError)])
  | Some item =>
      if quantity item <? quantity_ then
        (set_lock false self, [Reply (inl InsufficientQuantity)])
      else
        let new_sale_item :=
          {| sale_item_id := "89101112"; current_status := "open";
             quantity := quantity_ |} in
        let item := set_quantity (quantity item - quantity_) item in
        (park AwaitingChild (set_sale_item item self),
         [ExecuteChildWorkflow
            {| in_sale_item_id := sale_item_id new_sale_item;
               in_quantity := quantity new_sale_item;
               in_status := None |}
            ("sale-item-poc-workflow-" +:+ sale_item_id new_sale_item)
            "sale_item_poc_task_queue"])
  end.

(** [asyncio.Lock.acquire] returns at once when the lock is free and nobody
    waits for it. *)
Definition lock_free (self : SaleItemWorkflow) : bool :=
  negb (lock self) && forallb (fun h => negb (is_awaiting_lock h)) (handlers self).

(** [split_sale_item], up to its first await. *)
Definition split_sale_item (self : SaleItemWorkflow) (input : SaleItemSplitInput)
  : SaleItemWorkflow * list output :=
  let quantity_ := split_quantity input in
  match sale_item self with
  | None => (self, [Reply (inl NotInitialized)])
  | Some _ =>
      if lock_free self then split_locked (set_lock true self) quantity_
      else (park (AwaitingLock quantity_) self, [])
  end.

(** The result of the child workflow: the dict its [run] returns, or the
    failure of the child (or of starting it). *)
Inductive ChildResult := ChildCompleted | ChildFailed.

(** [split_sale_item], from the return of [execute_child_workflow] on: the
    [async with] block is left, which releases the lock. *)
Definition split_resume (self : SaleItemWorkflow) (r : ChildResult)
  : SaleItemWorkflow * list output :=
  (set_lock false self,
   [Reply match r with
          | ChildCompleted => inr VDict
          | ChildFailed => inl ChildWorkflowError
          end]).

(** ** Scheduling *)

(** What the engine can make the instance do next. *)
Inductive event :=
| MarkFulfilled (input : MarkFulfilledInput)
| UpdateStatus (input : SaleItemStatusUpdateInput)
| SplitSaleItem (input : SaleItemSplitInput)
| UpdateWorkflow
| ActivityResolved (i : nat) (r : ActivityResult)
| LockAcquired
| ChildResolved (i : nat) (r : ChildResult).

(** The position of the oldest waiter on the lock. *)
Fixpoint first_waiter (hs : list suspended) : option (nat * Z) :=
  match hs with
  | [] => None
  | AwaitingLock q :: _ => Some (0%nat, q)
  | _ :: hs => prod_map S id <$> first_waiter hs
  end.

(** One scheduling step.  An event that names no handler parked at the
    matching await leaves the instance as it is. *)
Definition step (self : SaleItemWorkflow) (e : event)
  : SaleItemWorkflow * list output :=
  match e with
  | MarkFulfilled input => mark_fulfilled self input
  | UpdateStatus input => update_status self input
  | SplitSaleItem input => split_sale_item self input
  | UpdateWorkflow => update_workflow self
  | ActivityResolved i r =>
      match handlers self !! i with
      | Some (AwaitingActivity a new_status) =>
          update_status_resume (unpark i self) a new_status r
      | _ => (self, [])
      end
  | LockAcquired =>
      if lock self then (self, [])
      else match first_waiter (handlers self) with
           | Some (i, q) => split_locked (set_lock true (unpark i self)) q
           | None => (self, [])
           end
  | ChildResolved i r =>
      match handlers self !! i with
      | Some AwaitingChild => split_resume (unpark i self) r
      | _ => (self, [])
      end
  end.

(** A schedule, with everything the engine observed along it. *)
Fixpoint exec (self : SaleItemWorkflow) (es : list event)
  : SaleItemWorkflow * list output :=
  match es with
  | [] => (self, [])
  | e :: es =>
      let '(self, out) := step self e in
      let '(self, outs) := exec self es in
      (self, (out ++ outs)%list)
  end.

(** The states an instance goes through: handlers may be delivered before
    [run] has set the item, [run] starts once, and any schedule follows. *)
Definition reachable (self : SaleItemWorkflow) : Prop :=
  ∃ (early : list event) (input : SaleItemWorkflowInput) (es : list event),
    self = (exec (run_start (exec init early).1 input) es).1.

(** The start inputs of the child workflows a schedule created. *)
Definition children (outs : list output) : list SaleItemWorkflowInput :=
  omap (λ o, match o with
             | ExecuteChildWorkflow input _ _ => Some input
             | _ => None
             end) outs.

(** The scenario of [starter.py]. *)
Definition starter_input : SaleItemWorkflowInput :=
  {| in_sale_item_id := "1234567"; in_quantity := 10; in_status := None |}.

Definition started : SaleItemWorkflow := run_start init starter_input.

(** ** Predicates of the statements *)

(** The statuses [update_status] has a case for. *)
Definition known_statuses : list string :=
  ["open"; "ready"; "billed_pending"; "billed_approved"].

(** The entry of the table for a status, as [dict.get(status, [])]. *)
Definition targets (current : string) : list string :=
  default [] (transitions !! current).

(** What the critical section of [split_sale_item] does for a request of
    [q] against [item]: either the request exceeds the quantity, the handler
    fails and the item is untouched; or the item's quantity is lowered by
    exactly [q] (its id and status staying) and exactly one child workflow is
    started, whose own [run] builds an item of quantity [q] and status
    open. *)
Definition split_outcome (item : SaleItem) (q : Z)
    (r : SaleItemWorkflow * list output) : Prop :=
  (quantity item < q →
     r.2 = [Reply (inl InsufficientQuantity)] ∧ sale_item r.1 = Some item)
  ∧ (q ≤ quantity item →
     (∃ item',
        sale_item r.1 = Some item'
        ∧ quantity item' = quantity item - q
        ∧ sale_item_id item' = sale_item_id item
        ∧ current_status item' = current_status item)
     ∧ ∃ child id task_queue,
         r.2 = [ExecuteChildWorkflow child id task_queue]
         ∧ ∀ fresh, ∃ child_item,
             sale_item (run_start fresh child) = Some child_item
             ∧ quantity child_item = q
             ∧ current_status child_item = "open").

(** The quantity of the item, once there is one, is not negative. *)
Definition quantity_ok (self : SaleItemWorkflow) : Prop :=
  ∀ item, sale_item self = Some item → 0 ≤ quantity item.

(** Before [run] has set the item, handlers fail or only set flags: nothing
    is parked and no child is started. *)
Definition not_started (self : SaleItemWorkflow) : Prop :=
  sale_item self = None ∧ handlers self = [].

(** The quantity a split asks for, arriving or parked at the lock, is not
    negative. *)
Definition request_ok (e : event) : Prop :=
  match e with
  | SplitSaleItem input => 0 ≤ split_quantity input
  | _ => True
  end.

(** What was asked of a handler parked at the lock. *)
Definition waiter_ok (h : suspended) : Prop :=
  match h with
  | AwaitingLock q => 0 ≤ q
  | _ => True
  end.

Definition waiters_ok (self : SaleItemWorkflow) : Prop :=
  Forall waiter_ok (handlers self).

Definition children_ok (outs : list output) : Prop :=
  Forall (λ child, 0 ≤ in_quantity child) (children outs).

(** The status a parked [update_status] will write is not the empty
    string. *)
Definition parked_ok (h : suspended) : Prop :=
  match h with
  | AwaitingActivity _ new_status => new_status ≠ ""
  | _ => True
  end.

(** Once [run] has started there is an item, its status is not the empty
    string, and no parked handler will write the empty string to it. *)
Definition running (self : SaleItemWorkflow) : Prop :=
  (∃ item, sale_item self = Some item ∧ current_status item ≠ "")
  ∧ Forall parked_ok (handlers self).

(** Unfolds a step into the cases of the handlers. *)
Ltac step_cases :=
  unfold step, mark_fulfilled, update_workflow, update_status,
    update_status_resume, split_sale_item, split_locked, split_resume;
  cbn beta iota zeta;
  repeat (case_match; cbn beta iota zeta); simpl in *; simplify_eq.

(** ** Measures and predicates of the further properties *)

#[global] Instance suspended_eq_dec : EqDecision suspended.
Proof. solve_decision. Defined.

(** The quantity handed to the children a schedule created. *)
Definition split_off (outs : list output) : Z :=
  foldr (λ child total, in_quantity child + total) 0 (children outs).

(** How many [split_sale_item] handlers are inside [async with self.lock],
    parked at their child workflow. *)
Definition in_critical_section (self : SaleItemWorkflow) : nat :=
  length (filter (λ h, h = AwaitingChild) (handlers self)).

(** The lock is held exactly while one split is inside its critical
    section. *)
Definition lock_consistent (self : SaleItemWorkflow) : Prop :=
  in_critical_section self = (if lock self then 1 else 0)%nat.

(** The status of the item is the one [run] started with or one of the
    four that [update_status] has a case for. *)
Definition status_in (start : string) (self : SaleItemWorkflow) : Prop :=
  (∃ item, sale_item self = Some item
           ∧ (current_status item = start ∨ current_status item ∈ known_statuses))
  ∧ Forall (λ h, match h with
                 | AwaitingActivity _ new_status => new_status ∈ known_statuses
                 | _ => True
                 end) (handlers self).

(** No [update_status] is parked at an activity. *)
Definition no_update_parked (self : SaleItemWorkflow) : Prop :=
  Forall (λ h, match h with AwaitingActivity _ _ => False | _ => True end)
         (handlers self).

Definition is_execute_activity (o : output) : bool :=
  match o with ExecuteActivity _ _ => true | _ => false end.

Definition is_invalid_status (o : output) : bool :=
  match o with Reply (inl (InvalidStatus _)) => true | _ => false end.

(** Events that resume or enter the part of a handler that writes the
    status, respectively the quantity. *)
Definition writes_status (e : event) : bool :=
  match e with ActivityResolved _ _ => true | _ => false end.

Definition writes_quantity (e : event) : bool :=
  match e with SplitSaleItem _ | LockAcquired => true | _ => false end.

Definition is_mark_fulfilled (e : event) : bool :=
  match e with MarkFulfilled _ => true | _ => false end.

(** The replies a handler can give before [run] has set the item: the
    not-initialised error, or the [None] of [update_workflow]. *)
Definition is_early_reply (o : output) : bool :=
  match o with
  | Reply (inl NotInitialized) | Reply (inr VNone) => true
  | _ => false
  end.

(** The two billed statuses. *)
Definition billed_statuses : list string := ["billed_pending"; "billed_approved"].

(** The item is billed, and so is what every parked [update_status] will
    write. *)
Definition billed (self : SaleItemWorkflow) : Prop :=
  (∃ item, sale_item self = Some item ∧ current_status item ∈ billed_statuses)
  ∧ Forall (λ h, match h with
                 | AwaitingActivity _ new_status => new_status ∈ billed_statuses
                 | _ => True
                 end) (handlers self).

(** The updates among the events (a signal gets no reply; the resolution of
    an await belongs to a handler already counted), and the replies among the
    outputs. *)
Definition is_update (e : event) : bool :=
  match e with
  | UpdateStatus _ | SplitSaleItem _ | UpdateWorkflow => true
  | _ => false
  end.

Definition is_reply (o : output) : bool :=
  match o with Reply _ => true | _ => false end.

Definition updates (es : list event) : nat := length (List.filter is_update es).

Definition replies (outs : list output) : nat := length (List.filter is_reply outs).

(** * Properties *)

(** ** The guard *)

Example can_open_ready :
  can_transition (mkStateMachine "open" transitions) "ready" = true.
Proof. vm_compute. reflexivity. Qed.

Example cannot_open_billed :
  can_transition (mkStateMachine "open" transitions) "billed_pending" = false.
Proof. vm_compute. reflexivity. Qed.

Lemma can_transition_iff (current new : string) :
  can_transition (mkStateMachine current transitions) new = true
  ↔ new ∈ targets current.
Proof. unfold can_transition, targets; simpl. apply bool_decide_eq_true. Qed.

Lemma check_accepts (current new : string) :
  new ∈ targets current →
  _check_status_transition current new = inr tt.
Proof.
  intros Hin. unfold _check_status_transition, transition.
  apply can_transition_iff in Hin. simpl. rewrite Hin. reflexivity.
Qed.

Lemma check_rejects (current new : string) :
  new ∉ targets current →
  _check_status_transition current new = inl (InvalidTransition current new).
Proof.
  intros Hnin. unfold _check_status_transition, transition; simpl.
  destruct (can_transition _ _) eqn:E; [|reflexivity].
  apply can_transition_iff in E. contradiction.
Qed.

(** Every edge of the table leads to a status [update_status] has a case
    for. *)
Lemma targets_known (current new : string) :
  new ∈ targets current → new ∈ known_statuses.
Proof.
  unfold targets, transitions, known_statuses.
  rewrite !lookup_insert, lookup_empty.
  repeat case_decide; simpl; rewrite ?elem_of_cons, ?elem_of_nil; tauto.
Qed.

(** ** Rejected transitions *)

(** C1. When the target is not in the table's entry for the item's current
    status, [update_status] raises the invalid-transition error naming both
    statuses, and the instance (its item and status with it) is as before;
    nothing is dispatched. *)
Theorem update_status_invalid_transition
    (self : SaleItemWorkflow) (item : SaleItem) (target : string) :
  sale_item self = Some item →
  target ∉ targets (current_status item) →
  let r := update_status self (mkSaleItemStatusUpdateInput target) in
  r.2 = [Reply (inl (InvalidTransition (current_status item) target))]
  ∧ r.1 = self
  ∧ get_sale_item r.1 = inr (VSaleItem item).
Proof.
  intros Hitem Hnin. unfold update_status, get_sale_item; simpl.
  rewrite Hitem; simpl. rewrite (check_rejects _ _ Hnin); simpl.
  rewrite Hitem. auto.
Qed.

Lemma update_status_invalid_transition_witness :
  let r := update_status started (mkSaleItemStatusUpdateInput "billed_pending") in
  r.2 = [Reply (inl (InvalidTransition "open" "billed_pending"))]
  ∧ r.1 = started
  ∧ get_sale_item r.1 = inr (VSaleItem (mkSaleItem "1234567" "open" 10)).
Proof.
  apply (update_status_invalid_transition started (mkSaleItem "1234567" "open" 10)).
  - reflexivity.
  - apply (bool_decide_unpack _). vm_compute. exact I.
Defined.

(** ** Unknown statuses *)

(** C5, as stated, fails: a target outside the four known statuses is in no
    entry of the table, so the guard, which runs before the [match], rejects
    it with the invalid-transition error. *)
Lemma update_status_unknown_not_invalid_status :
  ("foo" ∉ known_statuses)
  ∧ sale_item started = Some (mkSaleItem "1234567" "open" 10)
  ∧ (update_status started (mkSaleItemStatusUpdateInput "foo")).2
    = [Reply (inl (InvalidTransition "open" "foo"))]
  ∧ (update_status started (mkSaleItemStatusUpdateInput "foo")).2
    ≠ [Reply (inl (InvalidStatus "foo"))].
Proof.
  split; [apply (bool_decide_unpack _); vm_compute; exact I|].
  repeat split; try reflexivity. vm_compute. discriminate.
Qed.

(** C5, amended.  For an initialised item and a target that is none of the
    four known statuses, [update_status] fails, with the invalid-transition
    error of the guard, and leaves the instance as it is. *)
Theorem update_status_unknown_status
    (self : SaleItemWorkflow) (item : SaleItem) (target : string) :
  sale_item self = Some item →
  target ∉ known_statuses →
  update_status self (mkSaleItemStatusUpdateInput target)
  = (self, [Reply (inl (InvalidTransition (current_status item) target))]).
Proof.
  intros Hitem Hunknown.
  assert (Hnin : target ∉ targets (current_status item))
    by (intros Hin; apply Hunknown, (targets_known _ _ Hin)).
  unfold update_status; simpl. rewrite Hitem; simpl.
  rewrite (check_rejects _ _ Hnin). reflexivity.
Qed.

Lemma update_status_unknown_status_witness :
  update_status started (mkSaleItemStatusUpdateInput "foo")
  = (started, [Reply (inl (InvalidTransition "open" "foo"))]).
Proof.
  apply (update_status_unknown_status started (mkSaleItem "1234567" "open" 10)).
  - reflexivity.
  - apply (bool_decide_unpack _). vm_compute. exact I.
Defined.

(** ** Accepted transitions *)

(** For an edge of the table, [update_status] passes the guard and parks at
    the activity of the target's case, handing it the item as it is. *)
Lemma update_status_dispatches
    (self : SaleItemWorkflow) (item : SaleItem) (target : string) :
  sale_item self = Some item →
  target ∈ targets (current_status item) →
  ∃ a, update_status self (mkSaleItemStatusUpdateInput target)
       = (park (AwaitingActivity a target) self, [ExecuteActivity a item])
     ∧ (a = move_from_billed_pending_to_billed_approved
        ↔ target = "billed_approved").
Proof.
  intros Hitem Hin. unfold update_status; simpl. rewrite Hitem; simpl.
  rewrite (check_accepts _ _ Hin).
  apply targets_known in Hin. unfold known_statuses in Hin.
  rewrite ?elem_of_cons, elem_of_nil in Hin.
  repeat case_decide; subst; try (eexists; split; [reflexivity|]; split; congruence).
  exfalso. tauto.
Qed.

Lemma lookup_park (self : SaleItemWorkflow) (h : suspended) :
  handlers (park h self) !! length (handlers self) = Some h.
Proof. simpl. rewrite lookup_app_r, Nat.sub_diag by lia. reflexivity. Qed.

Lemma unpark_park (self : SaleItemWorkflow) (h : suspended) :
  unpark (length (handlers self)) (park h self) = self.
Proof.
  destruct self as [l u f it n hs]; unfold unpark, park, set_handlers; simpl.
  f_equal. induction hs as [|x hs IH]; simpl; [reflexivity|].
  f_equal. exact IH.
Qed.

(** C2. For an edge [(current, target)] of the table, [update_status]
    dispatches the activity of the target; when that activity completes, the
    handler replies with the item carrying status [target], which is the item
    of the instance from then on, so [get_sale_item] reports [target].  This
    holds when the handler runs alone (first part) and also when other
    handlers ran while it was parked (second part). *)
Theorem update_status_valid
    (self : SaleItemWorkflow) (item : SaleItem) (target : string) :
  sale_item self = Some item →
  target ∈ targets (current_status item) →
  ∃ a,
    let r := exec self [UpdateStatus (mkSaleItemStatusUpdateInput target);
                        ActivityResolved (length (handlers self)) ActivityCompleted] in
    r.2 = [ExecuteActivity a item;
           Reply (inr (VSaleItem (set_current_status target item)))]
    ∧ get_sale_item r.1 = inr (VSaleItem (set_current_status target item))
    ∧ current_status (set_current_status target item) = target
    ∧ (update_status self (mkSaleItemStatusUpdateInput target)).1
      = park (AwaitingActivity a target) self
    ∧ ∀ (later : SaleItemWorkflow) (i : nat) (item' : SaleItem),
        handlers later !! i = Some (AwaitingActivity a target) →
        sale_item later = Some item' →
        let r' := step later (ActivityResolved i ActivityCompleted) in
        r'.2 = [Reply (inr (VSaleItem (set_current_status target item')))]
        ∧ get_sale_item r'.1 = inr (VSaleItem (set_current_status target item')).
Proof.
  intros Hitem Hin.
  destruct (update_status_dispatches self item target Hitem Hin) as (a & Hupd & _).
  exists a. cbn zeta. unfold exec, step. rewrite Hupd.
  rewrite lookup_park, unpark_park.
  unfold update_status_resume, get_sale_item.
  split; [|split; [|split; [|split]]].
  - case_decide; simpl; rewrite Hitem; reflexivity.
  - case_decide; simpl; rewrite Hitem; reflexivity.
  - reflexivity.
  - reflexivity.
  - intros later i item' Hi Hitem'. simpl. rewrite Hi. simpl.
    case_decide; simpl; rewrite Hitem'; split; reflexivity.
Qed.

Lemma update_status_valid_witness :
  ∃ a,
    let r := exec started [UpdateStatus (mkSaleItemStatusUpdateInput "ready");
                           ActivityResolved 0 ActivityCompleted] in
    r.2 = [ExecuteActivity a (mkSaleItem "1234567" "open" 10);
           Reply (inr (VSaleItem (mkSaleItem "1234567" "ready" 10)))]
    ∧ get_sale_item r.1 = inr (VSaleItem (mkSaleItem "1234567" "ready" 10)).
Proof.
  destruct (update_status_valid started (mkSaleItem "1234567" "open" 10) "ready")
    as (a & H1 & H2 & _).
  - reflexivity.
  - apply (bool_decide_unpack _). vm_compute. exact I.
  - exists a. split; [exact H1|exact H2].
Defined.

(** ** Failed activities *)

(** C6. For an edge of the table, the status is not written when the
    activity is dispatched, and when the activity then fails (timeout or
    remote fault) the handler fails with that activity error and writes no
    attribute of the instance: run alone, the failed call leaves the instance
    exactly as it was; resumed after other handlers ran, it only takes itself
    off the in-flight list. *)
Theorem update_status_activity_failure
    (self : SaleItemWorkflow) (item : SaleItem) (target : string)
    (cause : ActivityFailure) :
  sale_item self = Some item →
  target ∈ targets (current_status item) →
  ∃ a,
    update_status self (mkSaleItemStatusUpdateInput target)
    = (park (AwaitingActivity a target) self, [ExecuteActivity a item])
    ∧ sale_item (park (AwaitingActivity a target) self) = Some item
    ∧ exec self [UpdateStatus (mkSaleItemStatusUpdateInput target);
                 ActivityResolved (length (handlers self)) (ActivityFailed cause)]
      = (self, [ExecuteActivity a item; Reply (inl (ActivityError a cause))])
    ∧ ∀ (later : SaleItemWorkflow) (i : nat),
        handlers later !! i = Some (AwaitingActivity a target) →
        step later (ActivityResolved i (ActivityFailed cause))
        = (unpark i later, [Reply (inl (ActivityError a cause))])
        ∧ sale_item (unpark i later) = sale_item later
        ∧ sale_item_fulfilled (unpark i later) = sale_item_fulfilled later.
Proof.
  intros Hitem Hin.
  destruct (update_status_dispatches self item target Hitem Hin) as (a & Hupd & _).
  exists a. split; [exact Hupd|]. split; [exact Hitem|]. split.
  - unfold exec, step. rewrite Hupd, lookup_park, unpark_park. reflexivity.
  - intros later i Hi. simpl. rewrite Hi. auto.
Qed.

Lemma update_status_activity_failure_witness :
  ∃ a,
    exec started [UpdateStatus (mkSaleItemStatusUpdateInput "ready");
                  ActivityResolved 0 (ActivityFailed StartToCloseTimeout)]
    = (started, [ExecuteActivity a (mkSaleItem "1234567" "open" 10);
                 Reply (inl (ActivityError a StartToCloseTimeout))]).
Proof.
  destruct (update_status_activity_failure started (mkSaleItem "1234567" "open" 10)
              "ready" StartToCloseTimeout) as (a & _ & _ & H & _).
  - reflexivity.
  - apply (bool_decide_unpack _). vm_compute. exact I.
  - exists a. exact H.
Defined.

(** ** Splitting *)

Lemma split_locked_outcome (self : SaleItemWorkflow) (item : SaleItem) (q : Z) :
  sale_item self = Some item →
  split_outcome item q (split_locked self q).
Proof.
  intros Hitem. unfold split_outcome, split_locked. rewrite Hitem.
  destruct (Z.ltb_spec (quantity item) q) as [Hlt|Hge]; simpl.
  - split; [auto|lia].
  - split; [lia|]. intros _. split.
    + eexists. split; [reflexivity|]. simpl. auto.
    + do 3 eexists. split; [reflexivity|].
      intros fresh. eexists. simpl. split; [reflexivity|]. split; reflexivity.
Qed.

Lemma first_waiter_lookup (hs : list suspended) (i : nat) (q : Z) :
  first_waiter hs = Some (i, q) → hs !! i = Some (AwaitingLock q).
Proof.
  revert i. induction hs as [|h hs IH]; intros i; simpl; [discriminate|].
  destruct h; try (intros [=]; subst; reflexivity);
    destruct (first_waiter hs) as [[j q']|]; simpl; intros [=]; subst;
    simpl; apply IH; reflexivity.
Qed.

(** A request parked behind nobody is the oldest waiter. *)
Lemma first_waiter_parked (hs : list suspended) (q : Z) :
  first_waiter hs = None →
  first_waiter (hs ++ [AwaitingLock q])%list = Some (length hs, q).
Proof.
  induction hs as [|h hs IH]; simpl; [reflexivity|].
  destruct h; try discriminate;
    destruct (first_waiter hs) as [[j q']|]; try discriminate;
    intros _; rewrite IH by reflexivity; reflexivity.
Qed.

(** It still is once the split holding the lock has left. *)
Lemma first_waiter_after_child (hs : list suspended) (j : nat) (q : Z) :
  first_waiter hs = None →
  hs !! j = Some AwaitingChild →
  ∃ i, first_waiter (delete j (hs ++ [AwaitingLock q])%list) = Some (i, q).
Proof.
  revert j. induction hs as [|h hs IH]; intros j Hnone Hj; [discriminate|].
  assert (Hhs : first_waiter hs = None).
  { simpl in Hnone. destruct h; try discriminate;
      destruct (first_waiter hs) as [[k q']|]; try discriminate; reflexivity. }
  destruct j as [|j].
  - eexists. change (delete 0%nat ((h :: hs) ++ [AwaitingLock q])%list)
      with (hs ++ [AwaitingLock q])%list.
    apply first_waiter_parked, Hhs.
  - destruct (IH j Hhs Hj) as (i & Hi).
    change (delete (S j) ((h :: hs) ++ [AwaitingLock q])%list)
      with (h :: delete j (hs ++ [AwaitingLock q])%list).
    simpl in Hnone. destruct h; try discriminate;
      simpl; rewrite Hi; eexists; reflexivity.
Qed.

(** C3. A request above the quantity the item has when the handler is in
    its critical section fails with the insufficient-quantity error and
    leaves the item (the instance, when it entered at once) as it is; a
    request at or below it lowers the item's quantity by exactly the request
    and starts a child workflow whose item has the requested quantity and
    status open.  This holds when the handler enters at once (lock free);
    when the lock is taken the handler parks its request, and the outcome is
    the same against the item of the moment the lock is passed to it, in any
    later state and in particular right after the split that held the lock
    has returned. *)
Theorem split_sale_item_spec
    (self : SaleItemWorkflow) (item : SaleItem) (q : Z) :
  sale_item self = Some item →
  (lock_free self = true →
     split_outcome item q (split_sale_item self (mkSaleItemSplitInput q))
     ∧ (quantity item < q →
        (split_sale_item self (mkSaleItemSplitInput q)).1 = self))
  ∧ (lock_free self = false →
     split_sale_item self (mkSaleItemSplitInput q)
     = (park (AwaitingLock q) self, [])
     ∧ handlers (park (AwaitingLock q) self) !! length (handlers self)
       = Some (AwaitingLock q))
  ∧ (∀ (later : SaleItemWorkflow) (i : nat) (item' : SaleItem),
       sale_item later = Some item' →
       lock later = false →
       first_waiter (handlers later) = Some (i, q) →
       handlers later !! i = Some (AwaitingLock q)
       ∧ split_outcome item' q (step later LockAcquired))
  ∧ (∀ (j : nat) (cr : ChildResult),
       lock self = true →
       handlers self !! j = Some AwaitingChild →
       first_waiter (handlers self) = None →
       let waiting :=
         exec self [SplitSaleItem (mkSaleItemSplitInput q); ChildResolved j cr] in
       waiting.2 = [Reply match cr with
                          | ChildCompleted => inr VDict
                          | ChildFailed => inl ChildWorkflowError
                          end]
       ∧ sale_item waiting.1 = Some item
       ∧ split_outcome item q (step waiting.1 LockAcquired)).
Proof.
  intros Hitem.
  assert (Hlater : ∀ (later : SaleItemWorkflow) (i : nat) (item' : SaleItem),
             sale_item later = Some item' →
             lock later = false →
             first_waiter (handlers later) = Some (i, q) →
             handlers later !! i = Some (AwaitingLock q)
             ∧ split_outcome item' q (step later LockAcquired)).
  { intros later i item' Hitem' Hl Hw. split; [exact (first_waiter_lookup _ _ _ Hw)|].
    simpl. rewrite Hl, Hw. apply split_locked_outcome. exact Hitem'. }
  split; [|split; [|split; [exact Hlater|]]].
  - intros Hfree. unfold split_sale_item; simpl. rewrite Hitem, Hfree. split.
    + apply split_locked_outcome. exact Hitem.
    + intros Hlt. unfold split_locked; simpl. rewrite Hitem.
      destruct (Z.ltb_spec (quantity item) q) as [_|Hge]; [|lia]. simpl.
      unfold lock_free in Hfree. apply andb_true_iff in Hfree as [Hl _].
      destruct self as [[] u f it n hs]; [discriminate Hl|reflexivity].
  - intros Hbusy. split; [|apply lookup_park].
    unfold split_sale_item; simpl. rewrite Hitem, Hbusy. reflexivity.
  - intros j cr Hl Hj Hnone.
    assert (Hbusy : lock_free self = false) by (unfold lock_free; rewrite Hl; reflexivity).
    assert (E1 : step self (SplitSaleItem (mkSaleItemSplitInput q))
                 = (park (AwaitingLock q) self, [])).
    { simpl. unfold split_sale_item; simpl. rewrite Hitem, Hbusy. reflexivity. }
    assert (E2 : step (park (AwaitingLock q) self) (ChildResolved j cr)
                 = split_resume (unpark j (park (AwaitingLock q) self)) cr).
    { simpl. rewrite (lookup_app_l_Some _ _ _ _ Hj). reflexivity. }
    cbn zeta. cbn [exec]. rewrite E1. cbn beta iota. rewrite E2.
    unfold split_resume. cbn [fst snd app].
    split; [reflexivity|]. split; [exact Hitem|].
    destruct (first_waiter_after_child _ j q Hnone Hj) as (i & Hi).
    exact (proj2 (Hlater (set_lock false (unpark j (park (AwaitingLock q) self)))
                    i item Hitem eq_refl Hi)).
Qed.

Lemma split_sale_item_spec_witness :
  (∃ item',
     sale_item (split_sale_item started (mkSaleItemSplitInput 6)).1 = Some item'
     ∧ quantity item' = 4)
  ∧ (split_sale_item started (mkSaleItemSplitInput 6)).2
    = [ExecuteChildWorkflow (mkSaleItemWorkflowInput "89101112" 6 None)
         "sale-item-poc-workflow-89101112" "sale_item_poc_task_queue"]
  ∧ split_sale_item started (mkSaleItemSplitInput 11)
    = (started, [Reply (inl InsufficientQuantity)])
  ∧ (let held := (split_sale_item started (mkSaleItemSplitInput 6)).1 in
     let waiting :=
       (exec held [SplitSaleItem (mkSaleItemSplitInput 3);
                   ChildResolved 0 ChildCompleted]).1 in
     (∃ item',
        sale_item (step waiting LockAcquired).1 = Some item'
        ∧ quantity item' = 1)
     ∧ (step waiting LockAcquired).2
       = [ExecuteChildWorkflow (mkSaleItemWorkflowInput "89101112" 3 None)
            "sale-item-poc-workflow-89101112" "sale_item_poc_task_queue"]).
Proof.
  destruct (split_sale_item_spec started (mkSaleItem "1234567" "open" 10) 6 eq_refl)
    as [Hfree _].
  destruct (Hfree eq_refl) as [[_ Hfit] _].
  destruct Hfit as [(item' & Hitem' & Hq & _) _]; [simpl; lia|].
  destruct (split_sale_item_spec started (mkSaleItem "1234567" "open" 10) 11 eq_refl)
    as [Hfree11 _].
  destruct (Hfree11 eq_refl) as [[Hover _] Hsame].
  destruct Hover as [Hreply _]; [simpl; lia|].
  destruct (split_sale_item_spec
              (split_sale_item started (mkSaleItemSplitInput 6)).1
              (mkSaleItem "1234567" "open" 4) 3 eq_refl)
    as (_ & _ & _ & Hheld).
  destruct (Hheld 0%nat ChildCompleted eq_refl eq_refl eq_refl) as (_ & _ & _ & Hfit3).
  destruct Hfit3 as [(item3 & Hitem3 & Hq3 & _) _]; [simpl; lia|].
  split; [exists item'; split; [exact Hitem'|exact Hq]|].
  split; [reflexivity|].
  split.
  { rewrite (surjective_pairing (split_sale_item started (mkSaleItemSplitInput 11))).
    rewrite Hreply, Hsame by (simpl; lia). reflexivity. }
  split; [exists item3; split; [exact Hitem3|exact Hq3]|reflexivity].
Defined.

(** ** Invariants of a schedule *)

Lemma exec_cons (self : SaleItemWorkflow) (e : event) (es : list event) :
  exec self (e :: es)
  = ((exec (step self e).1 es).1, ((step self e).2 ++ (exec (step self e).1 es).2)%list).
Proof.
  simpl. destruct (step self e) as [self1 out]; simpl.
  destruct (exec self1 es) as [self2 outs]. reflexivity.
Qed.

(** A property of instances kept by every step is kept by every schedule. *)
Lemma exec_invariant (P : SaleItemWorkflow → Prop) :
  (∀ self e, P self → P (step self e).1) →
  ∀ es self, P self → P (exec self es).1.
Proof.
  intros Hstep es. induction es as [|e es IH]; intros self HP; [exact HP|].
  rewrite exec_cons. simpl. apply IH, Hstep, HP.
Qed.

Lemma step_quantity_ok (self : SaleItemWorkflow) (e : event) :
  quantity_ok self → quantity_ok (step self e).1.
Proof.
  unfold quantity_ok. intros Hok.
  destruct e; step_cases; intros it Hit; simplify_eq; simpl; try (apply Hok; done);
    try lia.
Qed.

Lemma step_not_started (self : SaleItemWorkflow) (e : event) :
  not_started self →
  not_started (step self e).1 ∧ children (step self e).2 = [].
Proof.
  unfold not_started. intros [Hnone Hhs].
  destruct e; step_cases; try rewrite Hhs in *; simpl in *; simplify_eq; auto.
Qed.

Lemma exec_not_started (es : list event) (self : SaleItemWorkflow) :
  not_started self →
  not_started (exec self es).1 ∧ children (exec self es).2 = [].
Proof.
  revert self. induction es as [|e es IH]; intros self Hns; [auto|].
  rewrite exec_cons. simpl.
  destruct (step_not_started self e Hns) as [Hns' Hc].
  destruct (IH _ Hns') as [Hns'' Hc'].
  split; [exact Hns''|].
  unfold children in *. rewrite omap_app, Hc, Hc'. reflexivity.
Qed.

Lemma first_waiter_ok (hs : list suspended) (i : nat) (q : Z) :
  Forall waiter_ok hs → first_waiter hs = Some (i, q) → 0 ≤ q.
Proof.
  intros Hok Hw. apply first_waiter_lookup in Hw.
  apply (Forall_lookup_1 _ _ _ _ Hok Hw).
Qed.

Lemma step_waiters_ok (self : SaleItemWorkflow) (e : event) :
  waiters_ok self → request_ok e →
  waiters_ok (step self e).1 ∧ children_ok (step self e).2.
Proof.
  unfold waiters_ok, children_ok, children. intros Hok He.
  destruct e; step_cases;
    repeat match goal with
           | H : first_waiter _ = Some _ |- _ =>
               apply (first_waiter_ok _ _ _ Hok) in H
           end;
    (split; [|repeat constructor; simpl; lia]);
    rewrite ?Forall_app; repeat split;
    auto using Forall_delete, Forall_nil_2;
    repeat constructor; simpl; auto.
Qed.

Lemma exec_waiters_ok (es : list event) (self : SaleItemWorkflow) :
  waiters_ok self → Forall request_ok es →
  waiters_ok (exec self es).1 ∧ children_ok (exec self es).2.
Proof.
  revert self. induction es as [|e es IH]; intros self Hok Hes.
  - split; [exact Hok|constructor].
  - inversion Hes as [|? ? He Hes']; subst.
    rewrite exec_cons. simpl.
    destruct (step_waiters_ok self e Hok He) as [Hok' Hc].
    destruct (IH _ Hok' Hes') as [Hok'' Hc'].
    split; [exact Hok''|].
    unfold children_ok, children in *. rewrite omap_app.
    apply Forall_app. auto.
Qed.

(** ** Sign of the quantity *)

(** C4, as stated, fails: nothing checks the sign of a start input or of a
    split request.  A start input of quantity [-1] gives an item of quantity
    [-1]; and on the item of [starter.py] (quantity 10) a split request of
    [-5] passes the test [10 < -5], starts a child of quantity [-5] and
    leaves the parent with 15. *)
Lemma quantity_negative_counterexample :
  let negative := run_start init (mkSaleItemWorkflowInput "1234567" (-1) None) in
  let r := exec started [SplitSaleItem (mkSaleItemSplitInput (-5))] in
  reachable negative
  ∧ reachable r.1
  ∧ get_sale_item negative = inr (VSaleItem (mkSaleItem "1234567" "open" (-1)))
  ∧ children r.2 = [mkSaleItemWorkflowInput "89101112" (-5) None]
  ∧ get_sale_item (run_start init (mkSaleItemWorkflowInput "89101112" (-5) None))
    = inr (VSaleItem (mkSaleItem "89101112" "open" (-5)))
  ∧ get_sale_item r.1 = inr (VSaleItem (mkSaleItem "1234567" "open" 15))
  ∧ ¬ (∀ self item, reachable self → sale_item self = Some item → 0 ≤ quantity item).
Proof.
  cbn zeta.
  assert (Hreach : reachable (run_start init (mkSaleItemWorkflowInput "1234567" (-1) None)))
    by (exists [], (mkSaleItemWorkflowInput "1234567" (-1) None), []; reflexivity).
  split; [exact Hreach|]. split.
  { exists [], starter_input, [SplitSaleItem (mkSaleItemSplitInput (-5))]. reflexivity. }
  repeat (split; [reflexivity|]).
  intros Hall. specialize (Hall _ _ Hreach eq_refl). simpl in Hall. lia.
Qed.

(** C4, amended.  From a start input whose quantity is not negative, the
    item's quantity is not negative after any schedule, whatever the split
    requests; and every child a schedule creates has a non-negative quantity
    when the schedule's split requests are non-negative. *)
Theorem quantity_nonnegative
    (early : list event) (input : SaleItemWorkflowInput) (es : list event) :
  0 ≤ in_quantity input →
  let r := exec (run_start (exec init early).1 input) es in
  (∀ item, sale_item r.1 = Some item → 0 ≤ quantity item)
  ∧ (Forall request_ok es →
     Forall (λ child, 0 ≤ in_quantity child) (children r.2)).
Proof.
  intros Hq r. subst r. split.
  - apply (exec_invariant quantity_ok step_quantity_ok).
    intros item [= <-]. exact Hq.
  - intros Hes. apply exec_waiters_ok; [|exact Hes].
    destruct (exec_not_started early init) as [[_ Hhs] _]; [split; reflexivity|].
    unfold waiters_ok. simpl. rewrite Hhs. constructor.
Qed.

Lemma quantity_nonnegative_witness :
  let r := exec started [SplitSaleItem (mkSaleItemSplitInput 6);
                         SplitSaleItem (mkSaleItemSplitInput 6)] in
  (∀ item, sale_item r.1 = Some item → 0 ≤ quantity item)
  ∧ Forall (λ child, 0 ≤ in_quantity child) (children r.2).
Proof.
  destruct (quantity_nonnegative [] starter_input
              [SplitSaleItem (mkSaleItemSplitInput 6);
               SplitSaleItem (mkSaleItemSplitInput 6)]) as [H1 H2].
  - simpl. lia.
  - split; [exact H1|]. apply H2. repeat constructor; simpl; lia.
Defined.

(** ** Termination and restart *)

(** No handler clears the fulfilled flag. *)
Lemma step_fulfilled (self : SaleItemWorkflow) (e : event) :
  sale_item_fulfilled self = true → sale_item_fulfilled (step self e).1 = true.
Proof. intros Hf. destruct e; step_cases; auto. Qed.

(** C7. An [update_status] to [billed_approved] that passes the guard parks
    at the activity of that case; when the activity completes the handler
    succeeds and the fulfilled flag is set; the flag stays set under every
    later schedule, and whenever all handlers have then finished and no
    restart was requested, [run] returns its (empty) result instead of
    continuing as new. *)
Theorem billed_approved_terminates
    (self : SaleItemWorkflow) (item : SaleItem)
    (between : list event) (i : nat) (item' : SaleItem) (es : list event) :
  sale_item self = Some item →
  "billed_approved" ∈ targets (current_status item) →
  let parked := (update_status self (mkSaleItemStatusUpdateInput "billed_approved")).1 in
  let later := (exec parked between).1 in
  handlers later !! i
  = Some (AwaitingActivity move_from_billed_pending_to_billed_approved "billed_approved") →
  sale_item later = Some item' →
  let r := step later (ActivityResolved i ActivityCompleted) in
  let final := (exec r.1 es).1 in
  parked
  = park (AwaitingActivity move_from_billed_pending_to_billed_approved "billed_approved") self
  ∧ r.2 = [Reply (inr (VSaleItem (set_current_status "billed_approved" item')))]
  ∧ sale_item_fulfilled r.1 = true
  ∧ sale_item_fulfilled final = true
  ∧ (all_handlers_finished final = true → should_update final = false →
     run_resume final = Returned VDict).
Proof.
  intros Hitem Hin parked later Hi Hitem' r final.
  assert (Hparked : parked
    = park (AwaitingActivity move_from_billed_pending_to_billed_approved "billed_approved") self).
  { subst parked.
    destruct (update_status_dispatches self item _ Hitem Hin) as (a & -> & Ha).
    simpl. rewrite (proj2 Ha eq_refl). reflexivity. }
  assert (Hr : r = (set_sale_item (set_current_status "billed_approved" item')
                      (set_sale_item_fulfilled true (unpark i later)),
                    [Reply (inr (VSaleItem (set_current_status "billed_approved" item')))])).
  { subst r. simpl. rewrite Hi. unfold update_status_resume.
    rewrite decide_True by reflexivity. simpl. rewrite Hitem'. reflexivity. }
  assert (Hfinal : sale_item_fulfilled final = true).
  { subst final. apply (exec_invariant _ step_fulfilled). rewrite Hr. reflexivity. }
  split; [exact Hparked|]. rewrite Hr. split; [reflexivity|]. split; [reflexivity|].
  split; [exact Hfinal|].
  intros Hdone Hno. unfold run_resume, wait_condition.
  rewrite Hfinal, Hdone, Hno. reflexivity.
Qed.

Lemma billed_approved_terminates_witness :
  let pending :=
    run_start init (mkSaleItemWorkflowInput "1234567" 10 (Some "billed_pending")) in
  let final :=
    (exec pending [UpdateStatus (mkSaleItemStatusUpdateInput "billed_approved");
                   ActivityResolved 0 ActivityCompleted]).1 in
  sale_item_fulfilled final = true ∧ run_resume final = Returned VDict.
Proof.
  destruct (billed_approved_terminates
              (run_start init (mkSaleItemWorkflowInput "1234567" 10 (Some "billed_pending")))
              (mkSaleItem "1234567" "billed_pending" 10) [] 0%nat
              (mkSaleItem "1234567" "billed_pending" 10) [])
    as (_ & _ & _ & Hf & Hret).
  - reflexivity.
  - apply (bool_decide_unpack _). vm_compute. exact I.
  - reflexivity.
  - reflexivity.
  - split; [exact Hf|]. apply Hret; reflexivity.
Defined.

Lemma status_or_open_nonempty (status : option string) :
  status_or_open status ≠ "".
Proof.
  unfold status_or_open. destruct status as [s|]; [|discriminate].
  case_decide; [discriminate|assumption].
Qed.

Lemma step_running (self : SaleItemWorkflow) (e : event) :
  running self → running (step self e).1.
Proof.
  unfold running. intros [(item & Hitem & Hne) Hhs].
  assert (Hdel : ∀ i, Forall parked_ok (delete i (handlers self)))
    by (intros i; apply Forall_delete, Hhs).
  assert (Hlook : ∀ i a s, handlers self !! i = Some (AwaitingActivity a s) → s ≠ "")
    by (intros i a s Hi; apply (Forall_lookup_1 _ _ _ _ Hhs Hi)).
  destruct e; step_cases;
    (split;
     [eexists; split; [first [reflexivity|eassumption]|];
      simpl; first [assumption|congruence|eauto]|]);
    rewrite ?Forall_app, ?Forall_singleton; repeat split; simpl; auto;
    congruence.
Qed.

Lemma reachable_running (self : SaleItemWorkflow) :
  reachable self → running self.
Proof.
  intros (early & input & es & ->).
  apply (exec_invariant running step_running).
  destruct (exec_not_started early init) as [[_ Hhs] _]; [split; reflexivity|].
  split.
  - eexists. split; [reflexivity|]. simpl. apply status_or_open_nonempty.
  - simpl. rewrite Hhs. constructor.
Qed.

(** C8. In every reachable state in which a restart is forced (the restart
    flag is set and no handler is in flight), [run] continues as new with an
    input that carries the item's id, quantity and status, and the [run] of
    the new instance rebuilds exactly that item: [get_sale_item] answers
    after the restart what it answered before. *)
Theorem restart_round_trip (self fresh : SaleItemWorkflow) :
  reachable self →
  should_update self = true →
  all_handlers_finished self = true →
  ∃ item input,
    sale_item self = Some item
    ∧ run_resume self = ContinueAsNew input
    ∧ input = {| in_sale_item_id := sale_item_id item;
                 in_quantity := quantity item;
                 in_status := Some (current_status item) |}
    ∧ sale_item (run_start fresh input) = Some item
    ∧ get_sale_item (run_start fresh input) = get_sale_item self.
Proof.
  intros Hreach Hupd Hdone.
  destruct (reachable_running self Hreach) as [(item & Hitem & Hne) _].
  exists item. eexists. split; [exact Hitem|].
  split; [|split; [reflexivity|]].
  - unfold run_resume, wait_condition. rewrite Hupd, Hdone, Hitem. reflexivity.
  - assert (Hsame : sale_item (run_start fresh
               {| in_sale_item_id := sale_item_id item;
                  in_quantity := quantity item;
                  in_status := Some (current_status item) |}) = Some item).
    { simpl. rewrite decide_False by exact Hne. destruct item; reflexivity. }
    split; [exact Hsame|].
    unfold get_sale_item. rewrite Hsame, Hitem. reflexivity.
Qed.

Lemma restart_round_trip_witness :
  ∃ item input,
    sale_item (exec started [UpdateWorkflow]).1 = Some item
    ∧ run_resume (exec started [UpdateWorkflow]).1 = ContinueAsNew input
    ∧ input = mkSaleItemWorkflowInput "1234567" 10 (Some "open")
    ∧ get_sale_item (run_start init input)
      = get_sale_item (exec started [UpdateWorkflow]).1.
Proof.
  destruct (restart_round_trip (exec started [UpdateWorkflow]).1 init)
    as (item & input & H1 & H2 & H3 & _ & H5).
  - exists [], starter_input, [UpdateWorkflow]. reflexivity.
  - reflexivity.
  - reflexivity.
  - exists item, input. split; [exact H1|]. split; [exact H2|].
    split; [|exact H5].
    rewrite H3. simpl in H1. injection H1 as <-. reflexivity.
Defined.

(** C9. In every reachable state in which both the restart flag and the
    fulfilled flag are set and no handler is in flight, [run] continues as
    new: the restart flag is tested first, and the return is not reached. *)
Theorem restart_takes_precedence (self : SaleItemWorkflow) :
  reachable self →
  should_update self = true →
  sale_item_fulfilled self = true →
  all_handlers_finished self = true →
  wait_condition self = true
  ∧ ∃ input, run_resume self = ContinueAsNew input.
Proof.
  intros Hreach Hupd Hful Hdone.
  destruct (reachable_running self Hreach) as [(item & Hitem & _) _].
  unfold run_resume, wait_condition. rewrite Hupd, Hdone, Hitem.
  split; [reflexivity|]. eexists. reflexivity.
Qed.

Lemma restart_takes_precedence_witness :
  let both :=
    (exec started [UpdateWorkflow; MarkFulfilled (mkMarkFulfilledInput "approver")]).1 in
  wait_condition both = true ∧ ∃ input, run_resume both = ContinueAsNew input.
Proof.
  apply (restart_takes_precedence
           (exec started [UpdateWorkflow;
                          MarkFulfilled (mkMarkFulfilledInput "approver")]).1).
  - exists [], starter_input,
      [UpdateWorkflow; MarkFulfilled (mkMarkFulfilledInput "approver")].
    reflexivity.
  - reflexivity.
  - reflexivity.
  - reflexivity.
Defined.

(** ** Child identifiers *)

Lemma step_child_id (self : SaleItemWorkflow) (e : event)
    (child : SaleItemWorkflowInput) (id task_queue : string) :
  ExecuteChildWorkflow child id task_queue ∈ (step self e).2 →
  in_sale_item_id child = "89101112"
  ∧ id = "sale-item-poc-workflow-89101112".
Proof.
  destruct e; step_cases;
    rewrite ?elem_of_cons, ?elem_of_nil; intros Hc;
    intuition (try discriminate; simplify_eq; split; reflexivity).
Qed.

(** C10, as stated, fails: the child's id is the literal ["89101112"].  Two
    successive successful splits of the item of [starter.py] start children
    with the same id (and the same workflow id), and splitting an item whose
    own id is ["89101112"] gives a child with the parent's id. *)
Lemma child_id_counterexample :
  let r := exec started [SplitSaleItem (mkSaleItemSplitInput 3);
                         ChildResolved 0 ChildCompleted;
                         SplitSaleItem (mkSaleItemSplitInput 4)] in
  let child := run_start init (mkSaleItemWorkflowInput "89101112" 3 None) in
  r.2 = [ExecuteChildWorkflow (mkSaleItemWorkflowInput "89101112" 3 None)
           "sale-item-poc-workflow-89101112" "sale_item_poc_task_queue";
         Reply (inr VDict);
         ExecuteChildWorkflow (mkSaleItemWorkflowInput "89101112" 4 None)
           "sale-item-poc-workflow-89101112" "sale_item_poc_task_queue"]
  ∧ get_sale_item r.1 = inr (VSaleItem (mkSaleItem "1234567" "open" 3))
  ∧ get_sale_item child = inr (VSaleItem (mkSaleItem "89101112" "open" 3))
  ∧ children (split_sale_item child (mkSaleItemSplitInput 1)).2
    = [mkSaleItemWorkflowInput "89101112" 1 None].
Proof. cbn zeta. repeat split; reflexivity. Qed.

(** C10, amended.  Every successful split starts its child with the fixed
    identifier ["89101112"] and the workflow id
    ["sale-item-poc-workflow-89101112"], and every child workflow a schedule
    starts has these two: the child's id differs from the parent's id exactly
    when the parent's id is not that literal, and any two children of a
    schedule have the same identifier and the same workflow id. *)
Theorem split_child_id (self : SaleItemWorkflow) (es : list event) :
  (∀ (item : SaleItem) (q : Z),
     sale_item self = Some item → lock_free self = true → q ≤ quantity item →
     (split_sale_item self (mkSaleItemSplitInput q)).2
     = [ExecuteChildWorkflow (mkSaleItemWorkflowInput "89101112" q None)
          "sale-item-poc-workflow-89101112" "sale_item_poc_task_queue"])
  ∧ (∀ (child : SaleItemWorkflowInput) (id task_queue : string),
       ExecuteChildWorkflow child id task_queue ∈ (exec self es).2 →
       in_sale_item_id child = "89101112"
       ∧ id = "sale-item-poc-workflow-89101112"
       ∧ (∀ item, sale_item self = Some item →
            (in_sale_item_id child ≠ sale_item_id item
             ↔ sale_item_id item ≠ "89101112"))
       ∧ (∀ child' id' task_queue',
            ExecuteChildWorkflow child' id' task_queue' ∈ (exec self es).2 →
            in_sale_item_id child' = in_sale_item_id child ∧ id' = id)).
Proof.
  assert (Hid : ∀ es self c id tq,
             ExecuteChildWorkflow c id tq ∈ (exec self es).2 →
             in_sale_item_id c = "89101112"
             ∧ id = "sale-item-poc-workflow-89101112").
  { clear. induction es as [|e es IH]; intros self c id tq.
    - simpl. intros H. apply elem_of_nil in H. contradiction.
    - rewrite exec_cons. simpl. rewrite elem_of_app.
      intros [H|H]; [exact (step_child_id _ _ _ _ _ H)|exact (IH _ _ _ _ H)]. }
  split.
  - intros item q Hitem Hfree Hq.
    unfold split_sale_item, split_locked. simpl. rewrite Hitem, Hfree. simpl.
    rewrite ?Hitem.
    destruct (Z.ltb_spec (quantity item) q) as [?|_]; [lia|]. reflexivity.
  - intros child id tq Hchild.
    destruct (Hid _ _ _ _ _ Hchild) as [Hc Hw].
    split; [exact Hc|]. split; [exact Hw|]. split.
    + intros item _. rewrite Hc. split; intros H Heq; apply H; congruence.
    + intros child' id' tq' Hchild'.
      destruct (Hid _ _ _ _ _ Hchild') as [Hc' Hw']. split; congruence.
Qed.

Lemma split_child_id_witness :
  (split_sale_item started (mkSaleItemSplitInput 3)).2
  = [ExecuteChildWorkflow (mkSaleItemWorkflowInput "89101112" 3 None)
       "sale-item-poc-workflow-89101112" "sale_item_poc_task_queue"]
  ∧ in_sale_item_id (mkSaleItemWorkflowInput "89101112" 3 None) = "89101112"
  ∧ "sale-item-poc-workflow-89101112" = "sale-item-poc-workflow-89101112".
Proof.
  destruct (split_child_id started [SplitSaleItem (mkSaleItemSplitInput 3)])
    as [Hsplit Hids].
  split.
  - apply (Hsplit (mkSaleItem "1234567" "open" 10) 3); [reflexivity|reflexivity|].
    simpl. lia.
  - destruct (Hids (mkSaleItemWorkflowInput "89101112" 3 None)
                "sale-item-poc-workflow-89101112" "sale_item_poc_task_queue")
      as (H1 & H2 & _).
    + change (ExecuteChildWorkflow (mkSaleItemWorkflowInput "89101112" 3 None)
                "sale-item-poc-workflow-89101112" "sale_item_poc_task_queue"
              ∈ [ExecuteChildWorkflow (mkSaleItemWorkflowInput "89101112" 3 None)
                   "sale-item-poc-workflow-89101112" "sale_item_poc_task_queue"]).
      apply list_elem_of_singleton. reflexivity.
    + split; [exact H1|exact H2].
Defined.

(** * Further properties of the handlers *)

(** ** The table *)

Lemma targets_no_loop (s : string) : s ∉ targets s.
Proof.
  unfold targets, transitions.
  rewrite !lookup_insert, lookup_empty.
  repeat case_decide; subst; simpl; rewrite ?elem_of_cons, ?elem_of_nil;
    intros Hin; intuition congruence.
Qed.

(** X1. An update to the status the item already has is always rejected by
    the guard (the table has no edge from a status to itself, and no entry
    at all for a status it does not know), leaving the instance as it is. *)
Theorem update_status_same_status_rejected
    (self : SaleItemWorkflow) (item : SaleItem) :
  sale_item self = Some item →
  update_status self (mkSaleItemStatusUpdateInput (current_status item))
  = (self, [Reply (inl (InvalidTransition (current_status item) (current_status item)))]).
Proof.
  intros Hitem. unfold update_status; simpl. rewrite Hitem; simpl.
  rewrite (check_rejects _ _ (targets_no_loop _)). reflexivity.
Qed.

Lemma update_status_same_status_rejected_witness :
  update_status started (mkSaleItemStatusUpdateInput "open")
  = (started, [Reply (inl (InvalidTransition "open" "open"))]).
Proof.
  apply (update_status_same_status_rejected started (mkSaleItem "1234567" "open" 10)).
  reflexivity.
Defined.

Lemma targets_unknown (s : string) : s ∉ known_statuses → targets s = [].
Proof.
  unfold targets, transitions, known_statuses.
  rewrite !lookup_insert, lookup_empty, ?elem_of_cons, ?elem_of_nil.
  intros Hs. repeat case_decide; subst; simpl; try reflexivity; exfalso; tauto.
Qed.

(** ** The status over a schedule *)

Lemma step_status_in (start : string) (self : SaleItemWorkflow) (e : event) :
  status_in start self → status_in start (step self e).1.
Proof.
  unfold status_in. intros [(item & Hitem & Hst) Hhs].
  assert (Hdel : ∀ i, Forall (λ h, match h with
                                   | AwaitingActivity _ s => s ∈ known_statuses
                                   | _ => True
                                   end) (delete i (handlers self)))
    by (intros i; apply Forall_delete, Hhs).
  assert (Hlook : ∀ i a s, handlers self !! i = Some (AwaitingActivity a s) →
                           s ∈ known_statuses)
    by (intros i a s Hi; apply (Forall_lookup_1 _ _ _ _ Hhs Hi)).
  assert (Hk : ∀ s, s = "open" ∨ s = "ready" ∨ s = "billed_pending"
                    ∨ s = "billed_approved" → s ∈ known_statuses)
    by (intros s; unfold known_statuses; rewrite ?elem_of_cons; tauto).
  destruct e; step_cases;
    (split;
     [eexists; split; [first [reflexivity|eassumption]|];
      simpl; first [assumption|right; eauto]|]);
    rewrite ?Forall_app, ?Forall_singleton; repeat split; simpl; auto.
Qed.

(** X2. After any schedule the item's status is the status [run] started
    with ([input.status or "open"]) or one of the four known statuses; so an
    instance started without a status, or with a known one, only ever has a
    known status. *)
Theorem status_domain
    (early : list event) (input : SaleItemWorkflowInput) (es : list event) :
  ∃ item,
    sale_item (exec (run_start (exec init early).1 input) es).1 = Some item
    ∧ (current_status item = status_or_open (in_status input)
       ∨ current_status item ∈ known_statuses)
    ∧ (status_or_open (in_status input) ∈ known_statuses →
       current_status item ∈ known_statuses).
Proof.
  assert (H : status_in (status_or_open (in_status input))
                (exec (run_start (exec init early).1 input) es).1).
  { apply (exec_invariant _ (step_status_in _)).
    destruct (exec_not_started early init) as [[_ Hhs] _]; [split; reflexivity|].
    split.
    - eexists. split; [reflexivity|]. left. reflexivity.
    - simpl. rewrite Hhs. constructor. }
  destruct H as [(item & Hitem & Hst) _].
  exists item. split; [exact Hitem|]. split; [exact Hst|].
  intros Hknown. destruct Hst as [->|Hst]; assumption.
Qed.

(** An instance whose status the table does not know. *)
Lemma step_stuck (s : string) (self : SaleItemWorkflow) (e : event)
    (item : SaleItem) :
  s ∉ known_statuses →
  sale_item self = Some item → current_status item = s → no_update_parked self →
  (∃ item', sale_item (step self e).1 = Some item' ∧ current_status item' = s)
  ∧ no_update_parked (step self e).1
  ∧ forallb (λ o, negb (is_execute_activity o)) (step self e).2 = true.
Proof.
  unfold no_update_parked. intros Hs Hitem Hst Hhs.
  assert (Hdel : ∀ i, Forall (λ h, match h with
                                   | AwaitingActivity _ _ => False
                                   | _ => True
                                   end) (delete i (handlers self)))
    by (intros i; apply Forall_delete, Hhs).
  assert (Hlook : ∀ i a t, handlers self !! i = Some (AwaitingActivity a t) → False)
    by (intros i a t Hi; apply (Forall_lookup_1 _ _ _ _ Hhs Hi)).
  destruct e as [input|input|input| |i r| |i r].
  2:{ simpl. unfold update_status. rewrite Hitem. cbn zeta.
      rewrite check_rejects
        by (rewrite Hst, (targets_unknown _ Hs); apply not_elem_of_nil).
      simpl. eauto. }
  all: step_cases; try (exfalso; eauto; fail);
    (split; [eexists; split; [first [reflexivity|eassumption]|]; simpl; auto|]);
    (split; [|reflexivity]);
    rewrite ?Forall_app, ?Forall_singleton; repeat split; simpl; auto.
Qed.

(** X3. An instance started with a status that is none of the four known
    ones keeps that status under every schedule: every [update_status] is
    rejected by the guard, so no activity is ever dispatched. *)
Theorem unknown_status_stuck
    (early : list event) (input : SaleItemWorkflowInput) (es : list event) :
  status_or_open (in_status input) ∉ known_statuses →
  let r := exec (run_start (exec init early).1 input) es in
  (∃ item, sale_item r.1 = Some item
           ∧ current_status item = status_or_open (in_status input))
  ∧ forallb (λ o, negb (is_execute_activity o)) r.2 = true.
Proof.
  intros Hs. cbn zeta.
  destruct (exec_not_started early init) as [[_ Hhs] _]; [split; reflexivity|].
  assert (H0 : no_update_parked (run_start (exec init early).1 input))
    by (unfold no_update_parked; simpl; rewrite Hhs; constructor).
  assert (H1 : ∃ item, sale_item (run_start (exec init early).1 input) = Some item
                       ∧ current_status item = status_or_open (in_status input))
    by (eexists; split; reflexivity).
  revert H0 H1. generalize (run_start (exec init early).1 input) as self.
  induction es as [|e es IH]; intros self Hnp (item & Hitem & Hst).
  - simpl. split; [eauto|reflexivity].
  - rewrite exec_cons. simpl.
    destruct (step_stuck _ self e item Hs Hitem Hst Hnp) as (Hit' & Hnp' & Hout).
    destruct (IH _ Hnp' Hit') as [Hfin Houts].
    split; [exact Hfin|]. rewrite forallb_app, Hout, Houts. reflexivity.
Qed.

Lemma unknown_status_stuck_witness :
  let r := exec (run_start init (mkSaleItemWorkflowInput "1234567" 10 (Some "sold")))
             [UpdateStatus (mkSaleItemStatusUpdateInput "ready");
              UpdateStatus (mkSaleItemStatusUpdateInput "open")] in
  (∃ item, sale_item r.1 = Some item ∧ current_status item = "sold")
  ∧ forallb (λ o, negb (is_execute_activity o)) r.2 = true.
Proof.
  apply (unknown_status_stuck [] (mkSaleItemWorkflowInput "1234567" 10 (Some "sold"))
           [UpdateStatus (mkSaleItemStatusUpdateInput "ready");
            UpdateStatus (mkSaleItemStatusUpdateInput "open")]).
  apply (bool_decide_unpack _). vm_compute. exact I.
Defined.

(** ** What a schedule does to the item *)

Lemma split_off_app (outs1 outs2 : list output) :
  split_off (outs1 ++ outs2) = split_off outs1 + split_off outs2.
Proof.
  unfold split_off, children. rewrite omap_app.
  induction (omap _ outs1) as [|c cs IH]; simpl; [reflexivity|]. rewrite IH. lia.
Qed.

(** One step: the id stays, the quantity goes down by what is handed to a
    child, and only the events that resume or enter the writing part of a
    handler change the status or the quantity. *)
Lemma step_item (self : SaleItemWorkflow) (e : event) (item : SaleItem) :
  sale_item self = Some item →
  ∃ item',
    sale_item (step self e).1 = Some item'
    ∧ sale_item_id item' = sale_item_id item
    ∧ quantity item' + split_off (step self e).2 = quantity item
    ∧ (writes_status e = false → current_status item' = current_status item)
    ∧ (writes_quantity e = false → quantity item' = quantity item).
Proof.
  intros Hitem.
  destruct e; step_cases; eexists;
    (split; [first [reflexivity|eassumption]|]);
    unfold split_off; simpl; repeat split; intros; try discriminate;
    try reflexivity; lia.
Qed.

(** X4. The id of the item is the id of the start input after every
    schedule: no handler writes it. *)
Theorem sale_item_id_immutable
    (early : list event) (input : SaleItemWorkflowInput) (es : list event) :
  ∃ item,
    sale_item (exec (run_start (exec init early).1 input) es).1 = Some item
    ∧ sale_item_id item = in_sale_item_id input.
Proof.
  apply (exec_invariant
           (λ self, ∃ item, sale_item self = Some item
                            ∧ sale_item_id item = in_sale_item_id input)).
  - intros self e (item & Hitem & Hid).
    destruct (step_item self e item Hitem) as (item' & H1 & H2 & _).
    exists item'. split; [exact H1|congruence].
  - eexists. split; reflexivity.
Qed.

(** X5. Splitting conserves quantity: after any schedule, whatever the
    sign of the requests, the quantity left on the item plus the quantities
    handed to the children the schedule started is the quantity the item
    had before. *)
Theorem split_conserves_quantity
    (self : SaleItemWorkflow) (item : SaleItem) (es : list event) :
  sale_item self = Some item →
  ∃ item',
    sale_item (exec self es).1 = Some item'
    ∧ quantity item' + split_off (exec self es).2 = quantity item.
Proof.
  revert self item. induction es as [|e es IH]; intros self item Hitem.
  - exists item. split; [exact Hitem|]. unfold split_off. simpl. lia.
  - rewrite exec_cons. simpl.
    destruct (step_item self e item Hitem) as (item1 & H1 & _ & Hq & _).
    destruct (IH _ _ H1) as (item2 & H2 & Hq2).
    exists item2. split; [exact H2|]. rewrite split_off_app. lia.
Qed.

Lemma split_conserves_quantity_witness :
  ∃ item',
    sale_item (exec started [SplitSaleItem (mkSaleItemSplitInput 6);
                             SplitSaleItem (mkSaleItemSplitInput 3);
                             ChildResolved 0 ChildCompleted;
                             LockAcquired]).1 = Some item'
    ∧ quantity item'
      + split_off (exec started [SplitSaleItem (mkSaleItemSplitInput 6);
                                 SplitSaleItem (mkSaleItemSplitInput 3);
                                 ChildResolved 0 ChildCompleted;
                                 LockAcquired]).2
      = 10.
Proof.
  apply (split_conserves_quantity started (mkSaleItem "1234567" "open" 10)).
  reflexivity.
Defined.

(** X6. The status is written only when an awaited activity resolves, and
    the quantity only when a split enters its critical section: a schedule
    without activity resolutions leaves the status as it is, and a schedule
    in which no split arrives or acquires the lock leaves the quantity as it
    is. *)
Theorem item_written_only_by
    (self : SaleItemWorkflow) (item : SaleItem) (es : list event) :
  sale_item self = Some item →
  ∃ item',
    sale_item (exec self es).1 = Some item'
    ∧ (forallb (λ e, negb (writes_status e)) es = true →
       current_status item' = current_status item)
    ∧ (forallb (λ e, negb (writes_quantity e)) es = true →
       quantity item' = quantity item).
Proof.
  revert self item. induction es as [|e es IH]; intros self item Hitem.
  - exists item. auto.
  - rewrite exec_cons. simpl.
    destruct (step_item self e item Hitem) as (item1 & H1 & _ & _ & Hs & Hq).
    destruct (IH _ _ H1) as (item2 & H2 & Hs2 & Hq2).
    exists item2. split; [exact H2|]. split.
    + intros [He Hes]%andb_true_iff. apply negb_true_iff in He.
      rewrite (Hs2 Hes). apply Hs, He.
    + intros [He Hes]%andb_true_iff. apply negb_true_iff in He.
      rewrite (Hq2 Hes). apply Hq, He.
Qed.

Lemma item_written_only_by_witness :
  ∃ item',
    sale_item (exec started [UpdateStatus (mkSaleItemStatusUpdateInput "ready");
                             MarkFulfilled (mkMarkFulfilledInput "approver");
                             UpdateWorkflow]).1 = Some item'
    ∧ current_status item' = "open" ∧ quantity item' = 10.
Proof.
  destruct (item_written_only_by started (mkSaleItem "1234567" "open" 10)
              [UpdateStatus (mkSaleItemStatusUpdateInput "ready");
               MarkFulfilled (mkMarkFulfilledInput "approver");
               UpdateWorkflow] eq_refl) as (item' & H & Hs & Hq).
  exists item'. split; [exact H|]. split; [apply Hs|apply Hq]; reflexivity.
Defined.

(** ** The lock *)

Lemma critical_app (hs : list suspended) (h : suspended) :
  length (filter (λ h, h = AwaitingChild) (hs ++ [h])%list)
  = (length (filter (λ h, h = AwaitingChild) hs)
     + (if decide (h = AwaitingChild) then 1 else 0))%nat.
Proof.
  rewrite filter_app, length_app, filter_cons, filter_nil.
  case_decide; reflexivity.
Qed.

Lemma critical_delete (hs : list suspended) (i : nat) (h : suspended) :
  hs !! i = Some h →
  length (filter (λ h, h = AwaitingChild) hs)
  = (length (filter (λ h, h = AwaitingChild) (delete i hs))
     + (if decide (h = AwaitingChild) then 1 else 0))%nat.
Proof.
  revert i. induction hs as [|x hs IH]; intros i; [discriminate|].
  destruct i as [|i].
  - intros [= ->]. change (delete 0%nat (h :: hs)) with hs.
    rewrite filter_cons. case_decide; cbn [length];
      rewrite ?Nat.add_1_r, ?Nat.add_0_r; reflexivity.
  - intros Hi. change (delete (S i) (x :: hs)) with (x :: delete i hs).
    rewrite !filter_cons. specialize (IH _ Hi).
    repeat case_decide; cbn [length]; rewrite IH; reflexivity.
Qed.

Lemma step_lock_consistent (self : SaleItemWorkflow) (e : event) :
  lock_consistent self → lock_consistent (step self e).1.
Proof.
  unfold lock_consistent, in_critical_section. intros Hc.
  destruct e; step_cases;
    repeat match goal with
           | H : lock_free _ = true |- _ =>
               apply andb_true_iff in H as [H _]; apply negb_true_iff in H
           | H : first_waiter _ = Some _ |- _ => apply first_waiter_lookup in H
           | H : handlers _ !! _ = Some _ |- _ =>
               apply critical_delete in H; simpl in H
           end;
    rewrite ?critical_app; simpl;
    destruct (lock self); simpl in *; try discriminate; lia.
Qed.

(** X7. Mutual exclusion of splits: after every schedule the lock is held
    exactly when one [split_sale_item] is inside its critical section
    (parked at its child workflow), so two splits are never inside together,
    and the lock is free again whenever none is (it is released on the raise
    as on the return). *)
Theorem split_mutual_exclusion
    (early : list event) (input : SaleItemWorkflowInput) (es : list event) :
  let self := (exec (run_start (exec init early).1 input) es).1 in
  in_critical_section self = (if lock self then 1 else 0)%nat
  ∧ (in_critical_section self ≤ 1)%nat.
Proof.
  cbn zeta.
  assert (H : lock_consistent (exec (run_start (exec init early).1 input) es).1).
  { apply (exec_invariant _ step_lock_consistent).
    change (lock_consistent (exec init early).1).
    apply (exec_invariant _ step_lock_consistent). reflexivity. }
  split; [exact H|]. rewrite H. case_match; lia.
Qed.

(** X8. Two splits competing for more than there is: when the first
    request fits and the two together do not, the first starts its child,
    the second waits for the lock, and once the child has resolved and the
    lock is passed on, the second fails with the insufficient-quantity
    error; the item is left with the quantity less the first request. *)
Theorem competing_splits
    (self : SaleItemWorkflow) (item : SaleItem) (q1 q2 : Z) (r : ChildResult) :
  sale_item self = Some item →
  handlers self = [] →
  lock self = false →
  q1 ≤ quantity item →
  quantity item < q1 + q2 →
  exec self [SplitSaleItem (mkSaleItemSplitInput q1);
             SplitSaleItem (mkSaleItemSplitInput q2);
             ChildResolved 0 r;
             LockAcquired]
  = (set_sale_item (set_quantity (quantity item - q1) item) self,
     [ExecuteChildWorkflow (mkSaleItemWorkflowInput "89101112" q1 None)
        "sale-item-poc-workflow-89101112" "sale_item_poc_task_queue";
      Reply match r with
            | ChildCompleted => inr VDict
            | ChildFailed => inl ChildWorkflowError
            end;
      Reply (inl InsufficientQuantity)]).
Proof.
  intros Hitem Hhs Hlock H1 H2.
  destruct self as [l u f it n hs]. simpl in *. subst.
  unfold split_sale_item, lock_free, split_locked. simpl.
  destruct (Z.ltb_spec (quantity item) q1) as [?|_]; [lia|]. simpl.
  unfold split_locked. simpl.
  destruct (Z.ltb_spec (quantity item - q1) q2) as [_|?]; [|lia].
  reflexivity.
Qed.

Lemma competing_splits_witness :
  exec started [SplitSaleItem (mkSaleItemSplitInput 6);
                SplitSaleItem (mkSaleItemSplitInput 6);
                ChildResolved 0 ChildCompleted;
                LockAcquired]
  = (set_sale_item (mkSaleItem "1234567" "open" 4) started,
     [ExecuteChildWorkflow (mkSaleItemWorkflowInput "89101112" 6 None)
        "sale-item-poc-workflow-89101112" "sale_item_poc_task_queue";
      Reply (inr VDict);
      Reply (inl InsufficientQuantity)]).
Proof.
  apply (competing_splits started (mkSaleItem "1234567" "open" 10) 6 6 ChildCompleted).
  - reflexivity.
  - reflexivity.
  - reflexivity.
  - simpl. lia.
  - simpl. lia.
Defined.

(** ** Replies *)

Lemma check_passed (current new : string) (u : unit) :
  _check_status_transition current new = inr u → new ∈ targets current.
Proof.
  unfold _check_status_transition, transition. simpl.
  destruct (can_transition _ _) eqn:E; [|discriminate].
  intros _. apply can_transition_iff, E.
Qed.

Lemma check_failed (current new : string) (f : Failure) :
  _check_status_transition current new = inl f →
  f = InvalidTransition current new.
Proof.
  unfold _check_status_transition, transition. simpl.
  destruct (can_transition _ _); [discriminate|]. intros [= <-]. reflexivity.
Qed.

Lemma step_never_invalid_status (self : SaleItemWorkflow) (e : event) :
  forallb (λ o, negb (is_invalid_status o)) (step self e).2 = true.
Proof.
  destruct e; step_cases; try reflexivity.
  - match goal with
    | H : _check_status_transition _ _ = inl _ |- _ =>
        apply check_failed in H as ->
    end.
    reflexivity.
  - exfalso.
    match goal with
    | H : _check_status_transition _ _ = inr _ |- _ =>
        apply check_passed, targets_known in H; unfold known_statuses in H;
        rewrite ?elem_of_cons, elem_of_nil in H;
        destruct H as [?|[?|[?|[?|[]]]]]; contradiction
    end.
Qed.

(** X9. No schedule, from any state of the instance, ever gets the
    invalid-status error as a reply: the default case of the [match] in
    [update_status] is behind the guard, which lets only table targets
    through, and each of those has a case of its own. *)
Theorem invalid_status_never_raised (self : SaleItemWorkflow) (es : list event) :
  forallb (λ o, negb (is_invalid_status o)) (exec self es).2 = true.
Proof.
  revert self. induction es as [|e es IH]; intros self; [reflexivity|].
  rewrite exec_cons. simpl.
  rewrite forallb_app, step_never_invalid_status, IH. reflexivity.
Qed.

(** ** Before [run] has started *)

Lemma step_before_run (self : SaleItemWorkflow) (e : event) :
  not_started self →
  sale_item_fulfilled (step self e).1
  = sale_item_fulfilled self || is_mark_fulfilled e
  ∧ forallb is_early_reply (step self e).2 = true.
Proof.
  unfold not_started. intros [Hnone Hhs].
  destruct e; step_cases; try rewrite Hhs in *; simpl in *; simplify_eq;
    rewrite ?orb_true_r, ?orb_false_r; auto.
Qed.

Lemma exec_before_run (es : list event) (self : SaleItemWorkflow) :
  not_started self →
  sale_item_fulfilled (exec self es).1
  = sale_item_fulfilled self || existsb is_mark_fulfilled es
  ∧ forallb is_early_reply (exec self es).2 = true.
Proof.
  revert self. induction es as [|e es IH]; intros self Hns.
  - simpl. rewrite orb_false_r. auto.
  - rewrite exec_cons. simpl.
    destruct (step_before_run self e Hns) as [Hf Ho].
    destruct (step_not_started self e Hns) as [Hns' _].
    destruct (IH _ Hns') as [Hf' Ho'].
    rewrite Hf', Hf, forallb_app, Ho, Ho', orb_assoc. auto.
Qed.

(** X10. Handlers delivered before [run] has set the item: every
    [update_status] and [split_sale_item] fails with the not-initialised
    error, as does the query [get_sale_item]; nothing is dispatched and no
    child is started. *)
Theorem handlers_before_run (early : list event) :
  let r := exec init early in
  get_sale_item r.1 = inl NotInitialized
  ∧ handlers r.1 = []
  ∧ forallb is_early_reply r.2 = true
  ∧ ∀ status q,
      (update_status r.1 (mkSaleItemStatusUpdateInput status)).2
      = [Reply (inl NotInitialized)]
      ∧ (split_sale_item r.1 (mkSaleItemSplitInput q)).2
        = [Reply (inl NotInitialized)].
Proof.
  cbn zeta.
  destruct (exec_not_started early init) as [[Hnone Hhs] _]; [split; reflexivity|].
  destruct (exec_before_run early init) as [_ Ho]; [split; reflexivity|].
  unfold get_sale_item, update_status, split_sale_item. rewrite Hnone.
  repeat split; auto.
Qed.

(** X11. What survives the start of [run]: a restart requested before
    [run] starts is dropped ([run] clears the flag), while a fulfilment
    signalled before [run] starts is kept, so that [run] returns at once. *)
Theorem flags_at_run_start (early : list event) (input : SaleItemWorkflowInput) :
  let self := run_start (exec init early).1 input in
  should_update self = false
  ∧ sale_item_fulfilled self = existsb is_mark_fulfilled early
  ∧ run_resume self
    = if existsb is_mark_fulfilled early then Returned VDict else StillWaiting.
Proof.
  cbn zeta.
  destruct (exec_not_started early init) as [[_ Hhs] _]; [split; reflexivity|].
  destruct (exec_before_run early init) as [Hf _]; [split; reflexivity|].
  simpl in Hf. split; [reflexivity|]. split; [exact Hf|].
  unfold run_resume, wait_condition, all_handlers_finished. simpl.
  rewrite Hf, Hhs. destruct (existsb _ _); reflexivity.
Qed.

(** ** Across a restart *)

(** X12. A restart forgets the fulfilment: the input of continue-as-new
    carries the item only, so the new instance starts with the fulfilled
    flag and the approver name cleared and waits again, also when the
    restarted instance had been marked fulfilled. *)
Theorem restart_forgets_fulfilled (self : SaleItemWorkflow) :
  reachable self →
  should_update self = true →
  all_handlers_finished self = true →
  ∃ input,
    run_resume self = ContinueAsNew input
    ∧ sale_item_fulfilled (run_start init input) = false
    ∧ approver_name (run_start init input) = None
    ∧ run_resume (run_start init input) = StillWaiting.
Proof.
  intros Hreach Hupd Hdone.
  destruct (reachable_running self Hreach) as [(item & Hitem & _) _].
  eexists. split.
  - unfold run_resume, wait_condition. rewrite Hupd, Hdone, Hitem. reflexivity.
  - repeat split; reflexivity.
Qed.

Lemma restart_forgets_fulfilled_witness :
  let both :=
    (exec started [MarkFulfilled (mkMarkFulfilledInput "approver"); UpdateWorkflow]).1 in
  sale_item_fulfilled both = true
  ∧ ∃ input,
      run_resume both = ContinueAsNew input
      ∧ sale_item_fulfilled (run_start init input) = false
      ∧ approver_name (run_start init input) = None
      ∧ run_resume (run_start init input) = StillWaiting.
Proof.
  split; [reflexivity|].
  apply (restart_forgets_fulfilled
           (exec started [MarkFulfilled (mkMarkFulfilledInput "approver");
                          UpdateWorkflow]).1).
  - exists [], starter_input,
      [MarkFulfilled (mkMarkFulfilledInput "approver"); UpdateWorkflow].
    reflexivity.
  - reflexivity.
  - reflexivity.
Defined.

(** X13. In every reachable state [run] does not raise; it keeps waiting
    while a handler is in flight, whatever the flags; and it returns exactly
    when the item is fulfilled, no restart is requested and no handler is in
    flight. *)
Theorem run_outcome (self : SaleItemWorkflow) :
  reachable self →
  (∀ e, run_resume self ≠ RunRaised e)
  ∧ (handlers self ≠ [] → run_resume self = StillWaiting)
  ∧ (run_resume self = Returned VDict
     ↔ sale_item_fulfilled self = true ∧ should_update self = false
       ∧ handlers self = []).
Proof.
  intros Hreach.
  destruct (reachable_running self Hreach) as [(item & Hitem & _) _].
  unfold run_resume, wait_condition, all_handlers_finished. rewrite Hitem.
  destruct (should_update self), (sale_item_fulfilled self);
    case_bool_decide; simpl; repeat split; try congruence;
    intros; destruct_and?; congruence.
Qed.

Lemma run_outcome_witness :
  let parked :=
    (exec started [MarkFulfilled (mkMarkFulfilledInput "approver");
                   UpdateStatus (mkSaleItemStatusUpdateInput "ready")]).1 in
  run_resume parked = StillWaiting.
Proof.
  destruct (run_outcome
              (exec started [MarkFulfilled (mkMarkFulfilledInput "approver");
                             UpdateStatus (mkSaleItemStatusUpdateInput "ready")]).1)
    as (_ & H & _).
  - exists [], starter_input,
      [MarkFulfilled (mkMarkFulfilledInput "approver");
       UpdateStatus (mkSaleItemStatusUpdateInput "ready")].
    reflexivity.
  - apply H. discriminate.
Defined.

(** ** Interleaved updates *)

Lemma resume_completed (self : SaleItemWorkflow) (a : Activity) (t : string)
    (item : SaleItem) :
  sale_item self = Some item →
  ∃ self',
    update_status_resume self a t ActivityCompleted
    = (self', [Reply (inr (VSaleItem (set_current_status t item)))])
    ∧ sale_item self' = Some (set_current_status t item)
    ∧ handlers self' = handlers self.
Proof.
  intros Hitem. unfold update_status_resume.
  case_decide; simpl; rewrite Hitem; eexists; repeat split; reflexivity.
Qed.

(** X14. The guard looks at the status of the moment of the call only.
    Two updates accepted from the same status are both dispatched and both
    succeed; the status is the target of the one whose activity completes
    last, whether or not the table has an edge to it from the target written
    in between. *)
Theorem interleaved_updates_last_wins
    (self : SaleItemWorkflow) (item : SaleItem) (t1 t2 : string) :
  sale_item self = Some item →
  t1 ∈ targets (current_status item) →
  t2 ∈ targets (current_status item) →
  ∃ a1 a2,
    let n := length (handlers self) in
    let r := exec self [UpdateStatus (mkSaleItemStatusUpdateInput t1);
                        UpdateStatus (mkSaleItemStatusUpdateInput t2);
                        ActivityResolved (S n) ActivityCompleted;
                        ActivityResolved n ActivityCompleted] in
    r.2 = [ExecuteActivity a1 item;
           ExecuteActivity a2 item;
           Reply (inr (VSaleItem (set_current_status t2 item)));
           Reply (inr (VSaleItem (set_current_status t1 item)))]
    ∧ get_sale_item r.1 = inr (VSaleItem (set_current_status t1 item))
    ∧ handlers r.1 = handlers self.
Proof.
  intros Hitem Hin1 Hin2.
  destruct (update_status_dispatches self item t1 Hitem Hin1) as (a1 & Hupd1 & _).
  set (s1 := park (AwaitingActivity a1 t1) self) in *.
  destruct (update_status_dispatches s1 item t2 Hitem Hin2) as (a2 & Hupd2 & _).
  set (s2 := park (AwaitingActivity a2 t2) s1) in *.
  destruct (resume_completed s1 a2 t2 item Hitem) as (s3 & Hres3 & Hitem3 & Hhs3).
  assert (E3 : step s2 (ActivityResolved (S (length (handlers self))) ActivityCompleted)
               = (s3, [Reply (inr (VSaleItem (set_current_status t2 item)))])).
  { unfold step.
    replace (S (length (handlers self))) with (length (handlers s1))
      by (simpl; rewrite length_app; simpl; lia).
    subst s2. rewrite lookup_park, unpark_park. exact Hres3. }
  assert (Hlook : handlers s3 !! length (handlers self)
                  = Some (AwaitingActivity a1 t1))
    by (rewrite Hhs3; apply lookup_park).
  destruct (resume_completed (unpark (length (handlers self)) s3) a1 t1
              (set_current_status t2 item) Hitem3) as (s4 & Hres4 & Hitem4 & Hhs4).
  assert (E4 : step s3 (ActivityResolved (length (handlers self)) ActivityCompleted)
               = (s4, [Reply (inr (VSaleItem (set_current_status t1 item)))])).
  { unfold step. rewrite Hlook. exact Hres4. }
  assert (E1 : step self (UpdateStatus (mkSaleItemStatusUpdateInput t1))
               = (s1, [ExecuteActivity a1 item])) by exact Hupd1.
  assert (E2 : step s1 (UpdateStatus (mkSaleItemStatusUpdateInput t2))
               = (s2, [ExecuteActivity a2 item])) by exact Hupd2.
  exists a1, a2. cbn zeta.
  rewrite exec_cons, E1. cbn [fst snd].
  rewrite exec_cons, E2. cbn [fst snd].
  rewrite exec_cons, E3. cbn [fst snd].
  rewrite exec_cons, E4. cbn [fst snd exec app].
  split; [reflexivity|]. split.
  - unfold get_sale_item. rewrite Hitem4. reflexivity.
  - rewrite Hhs4. simpl. rewrite Hhs3. simpl.
    rewrite (delete_middle (handlers self) [] (AwaitingActivity a1 t1)).
    apply app_nil_r.
Qed.

Lemma interleaved_updates_last_wins_witness :
  let ready := run_start init (mkSaleItemWorkflowInput "1234567" 10 (Some "ready")) in
  ("open" ∉ targets "billed_pending")
  ∧ ∃ a1 a2,
      let r := exec ready [UpdateStatus (mkSaleItemStatusUpdateInput "open");
                           UpdateStatus (mkSaleItemStatusUpdateInput "billed_pending");
                           ActivityResolved 1 ActivityCompleted;
                           ActivityResolved 0 ActivityCompleted] in
      r.2 = [ExecuteActivity a1 (mkSaleItem "1234567" "ready" 10);
             ExecuteActivity a2 (mkSaleItem "1234567" "ready" 10);
             Reply (inr (VSaleItem (mkSaleItem "1234567" "billed_pending" 10)));
             Reply (inr (VSaleItem (mkSaleItem "1234567" "open" 10)))]
      ∧ get_sale_item r.1 = inr (VSaleItem (mkSaleItem "1234567" "open" 10)).
Proof.
  split; [apply (bool_decide_unpack _); vm_compute; exact I|].
  destruct (interleaved_updates_last_wins
              (run_start init (mkSaleItemWorkflowInput "1234567" 10 (Some "ready")))
              (mkSaleItem "1234567" "ready" 10) "open" "billed_pending")
    as (a1 & a2 & H1 & H2 & _).
  - reflexivity.
  - apply (bool_decide_unpack _). vm_compute. exact I.
  - apply (bool_decide_unpack _). vm_compute. exact I.
  - exists a1, a2. split; [exact H1|exact H2].
Defined.

(** ** Billed items *)

Lemma targets_billed (s t : string) :
  s ∈ billed_statuses → t ∈ targets s → t ∈ billed_statuses.
Proof.
  unfold billed_statuses, targets, transitions.
  rewrite !lookup_insert, lookup_empty, ?elem_of_cons, ?elem_of_nil.
  intros Hs. repeat case_decide; subst; simpl;
    rewrite ?elem_of_cons, ?elem_of_nil; intros Ht;
    intuition (try discriminate; try congruence).
Qed.

Lemma step_billed (self : SaleItemWorkflow) (e : event) :
  billed self → billed (step self e).1.
Proof.
  unfold billed. intros [(item & Hitem & Hst) Hhs].
  assert (Hdel : ∀ i, Forall (λ h, match h with
                                   | AwaitingActivity _ s => s ∈ billed_statuses
                                   | _ => True
                                   end) (delete i (handlers self)))
    by (intros i; apply Forall_delete, Hhs).
  assert (Hlook : ∀ i a s, handlers self !! i = Some (AwaitingActivity a s) →
                           s ∈ billed_statuses)
    by (intros i a s Hi; apply (Forall_lookup_1 _ _ _ _ Hhs Hi)).
  assert (Hnew : ∀ u new, sale_item self = Some item →
                   _check_status_transition (current_status item) new = inr u →
                   new ∈ billed_statuses)
    by (intros u new _ Hc; apply check_passed in Hc;
        exact (targets_billed _ _ Hst Hc)).
  destruct e; step_cases;
    (split;
     [eexists; split; [first [reflexivity|eassumption]|];
      simpl; first [assumption|eauto]|]);
    rewrite ?Forall_app, ?Forall_singleton; repeat split; simpl; eauto.
Qed.

(** X15. Billing is not undone: once the item is billed (pending or
    approved) and no update accepted earlier is still parked, the item stays
    billed under every schedule, interleaved or not; it never returns to
    open or ready. *)
Theorem billed_stays_billed
    (self : SaleItemWorkflow) (item : SaleItem) (es : list event) :
  sale_item self = Some item →
  current_status item ∈ billed_statuses →
  no_update_parked self →
  ∃ item',
    sale_item (exec self es).1 = Some item'
    ∧ current_status item' ∈ billed_statuses
    ∧ current_status item' ≠ "open" ∧ current_status item' ≠ "ready".
Proof.
  intros Hitem Hst Hnp.
  assert (H : billed (exec self es).1).
  { apply (exec_invariant _ step_billed). split; [eauto|].
    unfold no_update_parked in Hnp.
    eapply Forall_impl; [exact Hnp|]. intros [] ?; simpl in *; tauto. }
  destruct H as [(item' & Hitem' & Hst') _].
  exists item'. split; [exact Hitem'|]. split; [exact Hst'|].
  unfold billed_statuses in Hst'. rewrite ?elem_of_cons, elem_of_nil in Hst'.
  split; intros Heq; rewrite Heq in Hst'; intuition discriminate.
Qed.

Lemma billed_stays_billed_witness :
  ∃ item',
    sale_item
      (exec (run_start init (mkSaleItemWorkflowInput "1234567" 10 (Some "billed_pending")))
         [UpdateStatus (mkSaleItemStatusUpdateInput "billed_approved");
          UpdateStatus (mkSaleItemStatusUpdateInput "open");
          ActivityResolved 0 ActivityCompleted]).1 = Some item'
    ∧ current_status item' ∈ billed_statuses.
Proof.
  destruct (billed_stays_billed
              (run_start init (mkSaleItemWorkflowInput "1234567" 10 (Some "billed_pending")))
              (mkSaleItem "1234567" "billed_pending" 10)
              [UpdateStatus (mkSaleItemStatusUpdateInput "billed_approved");
               UpdateStatus (mkSaleItemStatusUpdateInput "open");
               ActivityResolved 0 ActivityCompleted])
    as (item' & H1 & H2 & _).
  - reflexivity.
  - apply (bool_decide_unpack _). vm_compute. exact I.
  - constructor.
  - exists item'. split; [exact H1|exact H2].
Defined.

(** ** Replies owed *)

Lemma length_delete_S (hs : list suspended) (i : nat) (h : suspended) :
  hs !! i = Some h → length hs = S (length (delete i hs)).
Proof.
  intros Hi. pose proof (lookup_lt_Some _ _ _ Hi).
  rewrite length_delete by eauto. lia.
Qed.

Lemma step_replies (self : SaleItemWorkflow) (e : event) :
  (replies (step self e).2 + length (handlers (step self e).1)
   = (if is_update e then 1 else 0) + length (handlers self))%nat.
Proof.
  unfold replies.
  destruct e; step_cases;
    repeat match goal with
           | H : first_waiter _ = Some _ |- _ => apply first_waiter_lookup in H
           | H : handlers _ !! _ = Some _ |- _ =>
               apply length_delete_S in H
           end;
    rewrite ?length_app; simpl; try lia.
Qed.

(** X16. Every update is answered once: after any schedule, the replies
    given plus the handlers still in flight are the updates delivered plus
    the handlers in flight before.  So when no handler is in flight at either
    end (as when [run] returns or continues as new), there are exactly as
    many replies as updates. *)
Theorem every_update_replied (self : SaleItemWorkflow) (es : list event) :
  (replies (exec self es).2 + length (handlers (exec self es).1)
   = updates es + length (handlers self))%nat
  ∧ (handlers self = [] → all_handlers_finished (exec self es).1 = true →
     replies (exec self es).2 = updates es).
Proof.
  assert (H : ∀ es self,
             (replies (exec self es).2 + length (handlers (exec self es).1)
              = updates es + length (handlers self))%nat).
  { clear. induction es as [|e es IH]; intros self; [reflexivity|].
    rewrite exec_cons. cbn [fst snd].
    pose proof (step_replies self e) as Hs. specialize (IH (step self e).1).
    unfold replies, updates in *. rewrite List.filter_app, length_app.
    simpl. destruct (is_update e); simpl in *; lia. }
  split; [apply H|].
  intros Hhs Hdone. specialize (H es self).
  apply bool_decide_eq_true in Hdone. rewrite Hhs, Hdone in H. simpl in H. lia.
Qed.

Lemma every_update_replied_witness :
  replies (exec started [UpdateStatus (mkSaleItemStatusUpdateInput "ready");
                         SplitSaleItem (mkSaleItemSplitInput 11);
                         UpdateWorkflow;
                         ActivityResolved 0 (ActivityFailed RemoteFault)]).2
  = 3%nat.
Proof.
  destruct (every_update_replied started
              [UpdateStatus (mkSaleItemStatusUpdateInput "ready");
               SplitSaleItem (mkSaleItemSplitInput 11);
               UpdateWorkflow;
               ActivityResolved 0 (ActivityFailed RemoteFault)]) as [_ H].
  apply H; reflexivity.
Defined.
